(** * Image format changer bot: a shallow embedding of [bot.py]

    The development follows the layout of the source file:
    - [Strings]: the few [str] and [os.path] operations the handlers use;
    - [Imaging]: Pillow images as far as the bot looks at them (their mode)
      and the colour-mode rule applied before [img.save];
    - [Stats]: the [Statistics] class and its counters;
    - [Bot]: the handlers [handle_document] and [button_callback] as programs
      of a state-and-exception monad over the file system, the per-user
      data, the locals of the handler and the trace of transport calls.

    Python integers are [Z]; file sizes are [N] on disk and enter the
    arithmetic through [Z.of_N]; counters of loop iterations are [nat]. *)

From stdpp Require Import gmap strings list fin_maps pretty.
From Stdlib Require Import ZArith QArith Ascii.

Local Open Scope string_scope.
Local Open Scope Z_scope.

(* ===================================================================== *)
(** ** Strings *)
(* ===================================================================== *)

Module Strings.

(** The names and the callback data are byte strings here: a Python [str]
    in its UTF-8 encoding, so that a character outside ASCII is a run of
    bytes from 128 up and [String.length] is the length in bytes, which is
    what the file system counts. *)
Fixpoint is_ascii (s : string) : bool :=
  match s with
  | EmptyString => true
  | String c s' => (N_of_ascii c <? 128)%N && is_ascii s'
  end.

Definition lower_ascii (c : ascii) : ascii :=
  let n := N_of_ascii c in
  if ((65 <=? n) && (n <=? 90))%N then ascii_of_N (n + 32) else c.

Definition upper_ascii (c : ascii) : ascii :=
  let n := N_of_ascii c in
  if ((97 <=? n) && (n <=? 122))%N then ascii_of_N (n - 32) else c.

Fixpoint map_string (f : ascii -> ascii) (s : string) : string :=
  match s with
  | EmptyString => EmptyString
  | String c s' => String (f c) (map_string f s')
  end.

(** [str.lower], on the ASCII letters.  The bot lower-cases a name only
    to test it against the ASCII extensions below.  Outside ASCII Python
    lower-cases two characters into an ASCII letter, the Kelvin sign (to
    k) and the dotted capital I (to i and a combining dot); neither result
    fits into one of the extensions, so the test comes out the same. *)
Definition lower : string -> string := map_string lower_ascii.

(** [str.upper].  On a string of ASCII characters it maps the letters a-z
    to A-Z.  On any other string it follows Unicode's case mapping, which
    turns some characters into ASCII letters (the dotless i into I, the
    long s into S, the ligature ff into FF); that mapping is not written
    out here but taken as [unicode_upper]. *)
Definition upper (unicode_upper : string -> string) (s : string) : string :=
  if is_ascii s then map_string upper_ascii s else unicode_upper s.

(** [s.endswith(suffix)] *)
Definition endswith (s suffix : string) : bool :=
  let n := String.length s in
  let m := String.length suffix in
  (m <=? n)%nat && bool_decide (String.substring (n - m) m s = suffix).

(** [s.split(sep)] for a one-character separator: the pieces between the
    occurrences of [sep], never an empty list. *)
Fixpoint split_on (sep : ascii) (s : string) : list string :=
  match s with
  | EmptyString => [EmptyString]
  | String c s' =>
      match split_on sep s' with
      | piece :: rest =>
          if bool_decide (c = sep) then EmptyString :: piece :: rest
          else String c piece :: rest
      | [] => [String c EmptyString]
      end
  end.

(** [s.rfind(c)]: the index of the last occurrence, [None] for Python's -1. *)
Fixpoint rfind_from (c : ascii) (s : string) (i : nat) : option nat :=
  match s with
  | EmptyString => None
  | String d s' =>
      match rfind_from c s' (S i) with
      | Some j => Some j
      | None => if bool_decide (d = c) then Some i else None
      end
  end.

Definition rfind (c : ascii) (s : string) : option nat := rfind_from c s 0.

(** Whether [p[lo:hi]] holds a character other than [c]: the loop of
    [genericpath._splitext] that steps over leading dots. *)
Fixpoint has_other_than (c : ascii) (p : string) (lo hi : nat) : bool :=
  match p with
  | EmptyString => false
  | String d p' =>
      match hi with
      | O => false
      | S hi' =>
          match lo with
          | O => negb (bool_decide (d = c)) || has_other_than c p' O hi'
          | S lo' => has_other_than c p' lo' hi'
          end
      end
  end.

(** [os.path.splitext] (posixpath): the extension starts at the last dot,
    when that dot comes after the last slash and some character other
    than a dot stands between the slash and it. *)
Definition splitext (p : string) : string * string :=
  let filenameIndex :=
    match rfind "/"%char p with Some i => S i | None => O end in
  match rfind "."%char p with
  | Some dotIndex =>
      if (filenameIndex <=? dotIndex)%nat
         && has_other_than "."%char p filenameIndex dotIndex
      then (String.substring 0 dotIndex p,
            String.substring dotIndex (String.length p - dotIndex) p)
      else (p, EmptyString)
  | None => (p, EmptyString)
  end.

End Strings.

(* ===================================================================== *)
(** ** Images and the colour-mode rule *)
(* ===================================================================== *)

Module Imaging.

(** A Pillow image, as far as the bot reads it: [img.format], [img.mode]
    and [img.size]. *)
Record image := Image {
  img_format : option string;
  img_mode : string;
  img_size : Z * Z;
  img_pixels : N   (* the pixel data, which the bot never inspects *)
}.

#[export] Instance image_eq_dec : EqDecision image.
Proof. solve_decision. Defined.

(** [img.convert(mode)]: a new image of that mode; a converted image has
    no [format]. *)
Definition convert (mode : string) (img : image) : image :=
  {| img_format := None; img_mode := mode;
     img_size := img_size img; img_pixels := img_pixels img |}.

(** [x in (a, b, ...)] on strings *)
Definition str_in (x : string) (l : list string) : bool :=
  bool_decide (x ∈ l).

(** The "Image mode conversion logic" of [button_callback]. *)
Definition normalize_mode (target_format : string) (img : image) : image :=
  if bool_decide (target_format = "JPEG")
     && str_in (img_mode img) ["RGBA"; "P"]
  then convert "RGB" img
  else if bool_decide (target_format = "WEBP")
          && negb (str_in (img_mode img) ["RGB"; "RGBA"])
  then convert "RGBA" img
  else if bool_decide (target_format = "AVIF")
          && negb (str_in (img_mode img) ["RGB"; "RGBA"])
  then convert "RGBA" img
  else img.

(** Pillow's modes with an alpha band, and those with a palette.  These
    two tables are Pillow's, not the bot's: they give the words "alpha
    channel" and "palette" their meaning. *)
Definition mode_has_alpha (mode : string) : bool :=
  str_in mode ["RGBA"; "LA"; "PA"; "RGBa"; "La"].

Definition mode_has_palette (mode : string) : bool :=
  str_in mode ["P"; "PA"].

(** The rule for the JPEG target as the specification words it: every
    mode with an alpha channel or a palette comes out as RGB. *)
Definition jpeg_flattens_alpha_and_palette : Prop :=
  forall img,
    mode_has_alpha (img_mode img) || mode_has_palette (img_mode img) = true ->
    img_mode (normalize_mode "JPEG" img) = "RGB".

End Imaging.

(* ===================================================================== *)
(** ** Statistics *)
(* ===================================================================== *)

Module Stats.

(** One entry of [daily_stats] or [monthly_stats]. *)
Record period := Period {
  images : Z;
  size_original : Z;
  size_converted : Z
}.

(** The dictionary [Statistics.stats]. *)
Record t := Make {
  total_images : Z;
  total_size_original : Z;
  total_size_converted : Z;
  conversions_by_format : gmap string Z;
  daily_stats : gmap string period;
  monthly_stats : gmap string period
}.

(** What [load_stats] returns when there is no statistics file. *)
Definition initial : t :=
  {| total_images := 0;
     total_size_original := 0;
     total_size_converted := 0;
     conversions_by_format := ∅;
     daily_stats := ∅;
     monthly_stats := ∅ |}.

Definition zero_period : period :=
  {| images := 0; size_original := 0; size_converted := 0 |}.

(** [if k not in d: d[k] = zero] followed by the three [+=] on [d[k]]. *)
Definition bump_period (original_size converted_size : Z)
    (k : string) (d : gmap string period) : gmap string period :=
  let old := default zero_period (d !! k) in
  <[k := {| images := images old + 1;
            size_original := size_original old + original_size;
            size_converted := size_converted old + converted_size |}]> d.

Definition bump_format (k : string) (d : gmap string Z) : gmap string Z :=
  <[k := default 0 (d !! k) + 1]> d.

(** [Statistics.update_conversion_stats]; [today] and [month] are the two
    readings of [datetime.now()].  [save_stats] rewrites the file from
    the dictionary and swallows its own errors, so it does not change
    the dictionary. *)
Definition update_conversion_stats (original_size converted_size : Z)
    (target_format today month : string) (s : t) : t :=
  {| total_images := total_images s + 1;
     total_size_original := total_size_original s + original_size;
     total_size_converted := total_size_converted s + converted_size;
     conversions_by_format :=
       bump_format target_format (conversions_by_format s);
     daily_stats :=
       bump_period original_size converted_size today (daily_stats s);
     monthly_stats :=
       bump_period original_size converted_size month (monthly_stats s) |}.

(** [sum(f(v) for v in d.values())] *)
Definition sum_with {V : Type} (f : V -> Z) (d : gmap string V) : Z :=
  map_fold (fun _ v acc => f v + acc) 0 d.

(** [sum(d.values())] *)
Definition sum_values (d : gmap string Z) : Z := sum_with (fun v => v) d.

(** [sum(p['images'] for p in d.values())] *)
Definition sum_images (d : gmap string period) : Z := sum_with images d.

(** The counters agree: total = sum over formats = sum over days. *)
Definition consistent (s : t) : Prop :=
  total_images s = sum_values (conversions_by_format s)
  /\ total_images s = sum_images (daily_stats s).

End Stats.

(* ===================================================================== *)
(** ** The handlers *)
(* ===================================================================== *)

Module Bot.
Import Strings Imaging.

(** *** Data *)

Definition SUPPORTED_FORMATS : list (string * string) :=
  [("JPEG", ".jpg"); ("PNG", ".png"); ("WEBP", ".webp"); ("GIF", ".gif");
   ("TIFF", ".tiff"); ("BMP", ".bmp"); ("AVIF", ".avif")].

(** [d[k]] on a dictionary literal; [None] is Python's [KeyError]. *)
Fixpoint dict_get {V} (d : list (string * V)) (k : string) : option V :=
  match d with
  | [] => None
  | (k', v) :: d' => if bool_decide (k' = k) then Some v else dict_get d' k
  end.

(** A file on disk: its length, and what [Image.open] makes of its bytes
    ([None]: it raises). *)
Record file := File { f_size : N; f_image : option image }.

Definition empty_file : file := {| f_size := 0; f_image := None |}.

(** What [extractall] leaves in the extraction directory. *)
#[warnings="-register-all"] Inductive node :=
| Regular (f : file)
| Directory (entries : list (string * node)).

(** The texts sent to the user, one constructor per f-string, with the
    values interpolated into it.  The elapsed time of the final summary
    is left out. *)
Inductive message :=
| MsgPreparing (n : nat) (target_format : string)
    (* "Preparing to convert {n} images to {target_format}..." *)
| MsgProgress (converted total : nat) (original_size converted_size : Z)
    (* "Converting... {converted}/{total} images processed. ..." *)
| MsgItemError (original_filename : string)
    (* "Error converting {original_filename}. Skipping it. Check logs." *)
| MsgNoneConverted
    (* "No images were successfully converted." *)
| MsgFinal (converted total : nat) (original_size converted_size : Z)
           (size_reduction_percent : Q)
    (* "Batch conversion completed! - Processed: {converted}/{total} ..." *)
| MsgNoImagesFound
    (* "No images found to convert. Please send images first." *)
| MsgCritical
    (* "Sorry, a critical error occurred during conversion. ..." *)
| MsgStatus (total_images : nat) (total_size : Z)
            (formats : list (string * nat))
    (* get_image_info(...) and "Select the format to convert all images:" *)
| MsgZipEmpty
    (* "The ZIP file did not contain any supported image files." *)
| MsgNotZip
    (* "Please send a ZIP file containing images or send images directly." *)
| MsgDocumentError.
    (* "Sorry, there was an error processing your file. Please try again." *)

(** The calls that leave the process, in the order they are made.  The
    first six go through the transport and may raise; a message that
    was sent is known by the number of the call that sent it. *)
Inductive event :=
| EAnswer
| EReply (m : message)
| EEdit (handle : nat) (m : message)
| ESendDocument (path : string) (members : list string)
                (converted : nat) (target_format : string)
| EGetFile
| EDownload (path : string)
| ESave (path target_format : string) (img : image)
| EZipCreate (path : string)
| EZipWrite (file_path arcname : string).

(** [context.user_data]: both keys are set together, so one option tells
    whether ['pending_images'] is in the dictionary. *)
Record user_data := UserData {
  pending_images : option (list (string * string));
  message_to_edit : option nat
}.

(** The local variables of [button_callback] that its loop assigns.
    [output_converted_path] is [None] until the first assignment: the
    handler asks whether the name is in [locals()]. *)
Record locals := Locals {
  converted_files_paths : list (string * string);
  total_original_size : Z;
  total_converted_size : Z;
  successfully_converted_count : nat;
  output_converted_path : option string
}.

Definition fresh_locals : locals :=
  {| converted_files_paths := [];
     total_original_size := 0;
     total_converted_size := 0;
     successfully_converted_count := 0;
     output_converted_path := None |}.

Record state := State {
  fs : gmap string file;
  stats : Stats.t;
  user : user_data;
  loc : locals;
  trace : list event;
  temps : nat;     (* temporary files created so far *)
  ticks : nat      (* readings of the clock so far *)
}.

(** Everything the handlers ask of the outside. *)
Record world := World {
  tx_ok : nat -> bool;
    (* whether the transport call made after n events goes through *)
  tmp_name : nat -> string -> string;
    (* the name of the n-th temporary file, for a suffix *)
  clock : nat -> string -> string;
    (* the n-th reading of datetime.now(), under a strftime pattern *)
  encode : image -> string -> option N;
    (* img.save: the length written, or None when it raises *)
  str_upper : string -> string
    (* str.upper on a string with characters outside ASCII *)
}.

(** *** The monad: state, and Python's exceptions *)

Inductive exn :=
| IndexError | KeyError | FileNotFoundError | IsADirectoryError
| UnidentifiedImageError | EncoderError | BadZipFile | TransportError
| ZeroDivisionError | OSError.

Inductive result (A : Type) :=
| Ok (a : A)
| Raise (e : exn).
Arguments Ok {A} a.
Arguments Raise {A} e.

Definition M (A : Type) : Type := state -> result A * state.

Definition ret {A} (a : A) : M A := fun s => (Ok a, s).

Definition bind {A B} (m : M A) (k : A -> M B) : M B :=
  fun s => match m s with
           | (Ok a, s') => k a s'
           | (Raise e, s') => (Raise e, s')
           end.

Definition raise {A} (e : exn) : M A := fun s => (Raise e, s).

(** [try: m  except Exception: h]; what [m] did to the state stays. *)
Definition try_except {A} (m : M A) (h : exn -> M A) : M A :=
  fun s => match m s with
           | (Ok a, s') => (Ok a, s')
           | (Raise e, s') => h e s'
           end.

Notation "x <- m ;; k" := (bind m (fun x => k))
  (at level 100, m at next level, right associativity).
Notation "m ;; k" := (bind m (fun _ => k))
  (at level 100, right associativity).

Definition get : M state := fun s => (Ok s, s).
Definition modify (f : state -> state) : M unit := fun s => (Ok tt, f s).

Fixpoint for_each {A} (l : list A) (body : A -> M unit) : M unit :=
  match l with
  | [] => ret tt
  | x :: l' => body x ;; for_each l' body
  end.

Definition set_fs (f : gmap string file -> gmap string file) (s : state) :=
  {| fs := f (fs s); stats := stats s; user := user s; loc := loc s;
     trace := trace s; temps := temps s; ticks := ticks s |}.
Definition set_stats (f : Stats.t -> Stats.t) (s : state) :=
  {| fs := fs s; stats := f (stats s); user := user s; loc := loc s;
     trace := trace s; temps := temps s; ticks := ticks s |}.
Definition set_user (f : user_data -> user_data) (s : state) :=
  {| fs := fs s; stats := stats s; user := f (user s); loc := loc s;
     trace := trace s; temps := temps s; ticks := ticks s |}.
Definition set_loc (f : locals -> locals) (s : state) :=
  {| fs := fs s; stats := stats s; user := user s; loc := f (loc s);
     trace := trace s; temps := temps s; ticks := ticks s |}.
Definition set_trace (f : list event -> list event) (s : state) :=
  {| fs := fs s; stats := stats s; user := user s; loc := loc s;
     trace := f (trace s); temps := temps s; ticks := ticks s |}.
Definition set_temps (f : nat -> nat) (s : state) :=
  {| fs := fs s; stats := stats s; user := user s; loc := loc s;
     trace := trace s; temps := f (temps s); ticks := ticks s |}.
Definition set_ticks (f : nat -> nat) (s : state) :=
  {| fs := fs s; stats := stats s; user := user s; loc := loc s;
     trace := trace s; temps := temps s; ticks := f (ticks s) |}.

(** The longest file name the file system takes, in bytes. *)
Definition NAME_MAX : nat := 255.

(** Whether [tempfile] can create a file for a suffix: the name it makes
    is "tmp", eight random characters and the suffix. *)
Definition fits_temporary_name (suffix : string) : bool :=
  (String.length "tmp" + 8 + String.length suffix <=? NAME_MAX)%nat.

Section Handlers.
Variable w : world.

(** *** The outside *)

Definition log (e : event) : M unit :=
  modify (set_trace (fun t => (t ++ [e])%list)).

(** A transport call: it is attempted (and so in the trace) whether it
    goes through or not; it returns the handle of what it sent. *)
Definition tx (e : event) : M nat :=
  fun s =>
    let n := length (trace s) in
    let s' := set_trace (fun t => (t ++ [e])%list) s in
    if tx_ok w n then (Ok n, s') else (Raise TransportError, s').

Definition path_exists (path : string) : M bool :=
  fun s => (Ok (bool_decide (is_Some (fs s !! path))), s).

Definition getsize (path : string) : M Z :=
  fun s => match fs s !! path with
           | Some f => (Ok (Z.of_N (f_size f)), s)
           | None => (Raise FileNotFoundError, s)
           end.

Definition unlink (path : string) : M unit :=
  fun s => match fs s !! path with
           | Some _ => (Ok tt, set_fs (delete path) s)
           | None => (Raise FileNotFoundError, s)
           end.

Definition write_file (path : string) (f : file) : M unit :=
  modify (set_fs (insert path f)).

(** [tempfile.NamedTemporaryFile(delete=False, suffix=...)]: the file
    is created, empty, and its name returned; when the name would be
    longer than [NAME_MAX] the creation raises [OSError] (ENAMETOOLONG)
    and there is no file. *)
Definition named_temporary_file (suffix : string) : M string :=
  if fits_temporary_name suffix then
    s <- get ;;
    let name := tmp_name w (temps s) suffix in
    modify (set_temps S) ;;
    write_file name empty_file ;;
    ret name
  else raise OSError.

Definition image_open (path : string) : M image :=
  fun s => match fs s !! path with
           | Some f =>
               match f_image f with
               | Some img => (Ok img, s)
               | None => (Raise UnidentifiedImageError, s)
               end
           | None => (Raise FileNotFoundError, s)
           end.

(** [img.save(path, format=...)] *)
Definition image_save (img : image) (path target_format : string)
    : M unit :=
  log (ESave path target_format img) ;;
  match encode w img target_format with
  | Some n => write_file path {| f_size := n; f_image := Some img |}
  | None => raise EncoderError
  end.

(** [datetime.now().strftime(pattern)] *)
Definition now (pattern : string) : M string :=
  s <- get ;;
  modify (set_ticks S) ;;
  ret (clock w (ticks s) pattern).

(** [stats.update_conversion_stats], the dates read as it does. *)
Definition update_conversion_stats (original_size converted_size : Z)
    (target_format : string) : M unit :=
  today <- now "%Y-%m-%d" ;;
  month <- now "%Y-%m" ;;
  modify (set_stats (Stats.update_conversion_stats
                       original_size converted_size
                       target_format today month)).

(** *** [button_callback] *)

Definition set_output_converted_path (p : string) (l : locals) : locals :=
  {| converted_files_paths := converted_files_paths l;
     total_original_size := total_original_size l;
     total_converted_size := total_converted_size l;
     successfully_converted_count := successfully_converted_count l;
     output_converted_path := Some p |}.

Definition add_original_size (n : Z) (l : locals) : locals :=
  {| converted_files_paths := converted_files_paths l;
     total_original_size := total_original_size l + n;
     total_converted_size := total_converted_size l;
     successfully_converted_count := successfully_converted_count l;
     output_converted_path := output_converted_path l |}.

(** The three updates of a success: [total_converted_size += ...],
    [converted_files_paths.append(...)], [successfully_converted_count += 1]
    (the call of the statistics stands between the first and the second
    and does not read them). *)
Definition record_converted (n : Z) (entry : string * string) (l : locals)
    : locals :=
  {| converted_files_paths := (converted_files_paths l ++ [entry])%list;
     total_original_size := total_original_size l;
     total_converted_size := total_converted_size l + n;
     successfully_converted_count := S (successfully_converted_count l);
     output_converted_path := output_converted_path l |}.

Definition lookup_format (target_format : string) : M string :=
  match dict_get SUPPORTED_FORMATS target_format with
  | Some ext => ret ext
  | None => raise KeyError
  end.

(** The test that guards the progress report. *)
Definition progress_due (count total : nat) : bool :=
  (count mod 5 =? 0)%nat || (count =? total)%nat.

(** The body of the [try] inside the loop.  Each [ret tt] before the end
    is one of the [continue] statements. *)
Definition convert_one (status : nat) (target_format : string) (total : nat)
    (temp_file_path original_filename : string) : M unit :=
  found <- path_exists temp_file_path ;;
  if negb found then ret tt else
  current_original_size <- getsize temp_file_path ;;
  if current_original_size =? 0 then ret tt else
  modify (set_loc (add_original_size current_original_size)) ;;
  img <- image_open temp_file_path ;;
  let img := normalize_mode target_format img in
  let base := fst (splitext original_filename) in
  ext <- lookup_format target_format ;;
  let filename_in_zip := base ++ ext in
  output_converted_path <- named_temporary_file ext ;;
  modify (set_loc (set_output_converted_path output_converted_path)) ;;
  image_save img output_converted_path target_format ;;
  written <- path_exists output_converted_path ;;
  size <- (if written then getsize output_converted_path else ret 0) ;;
  if negb written || (size =? 0) then
    (if written then unlink output_converted_path else ret tt)
  else
    current_converted_size <- getsize output_converted_path ;;
    update_conversion_stats current_original_size current_converted_size
                            target_format ;;
    modify (set_loc (record_converted current_converted_size
                       (output_converted_path, filename_in_zip))) ;;
    s <- get ;;
    let l := loc s in
    if progress_due (successfully_converted_count l) total then
      try_except
        (tx (EEdit status
               (MsgProgress (successfully_converted_count l) total
                  (total_original_size l) (total_converted_size l))) ;;
         ret tt)
        (fun _ => ret tt)
    else ret tt.

(** The [except Exception] of the loop: the notice, then the unlink of
    whatever [output_converted_path] names, if the name is bound and the
    file is there. *)
Definition skip_item (original_filename : string) (e : exn) : M unit :=
  tx (EReply (MsgItemError original_filename)) ;;
  s <- get ;;
  match output_converted_path (loc s) with
  | Some p =>
      found <- path_exists p ;;
      if found then unlink p else ret tt
  | None => ret tt
  end.

Definition process_item (status : nat) (target_format : string) (total : nat)
    (item : string * string) : M unit :=
  try_except
    (convert_one status target_format total (fst item) (snd item))
    (skip_item (snd item)).

(** The [for] loop over [pending_files_data]. *)
Definition convert_all (status : nat) (target_format : string)
    (pending_files_data : list (string * string)) : M unit :=
  for_each pending_files_data
    (process_item status target_format (length pending_files_data)).

(** [zipf.write(file_path, arcname=...)] for each converted file; a file
    that is gone raises. *)
Fixpoint zip_write_all (files : list (string * string)) : M (list string) :=
  match files with
  | [] => ret []
  | (file_path, filename_in_zip) :: rest =>
      found <- path_exists file_path ;;
      if found then
        log (EZipWrite file_path filename_in_zip) ;;
        members <- zip_write_all rest ;;
        ret (filename_in_zip :: members)
      else raise FileNotFoundError
  end.

(** After the loop: the archive is built, sent and removed, or the user is
    told that nothing was converted. *)
Definition deliver (target_format : string) : M unit :=
  s <- get ;;
  let l := loc s in
  match converted_files_paths l with
  | _ :: _ =>
      stamp <- now "%Y%m%d_%H%M%S" ;;
      let zip_output_path := "/tmp/converted_images_" ++ stamp ++ ".zip" in
      log (EZipCreate zip_output_path) ;;
      write_file zip_output_path empty_file ;;
      members <- zip_write_all (converted_files_paths l) ;;
      tx (ESendDocument zip_output_path members
            (successfully_converted_count l) target_format) ;;
      unlink zip_output_path ;;
      for_each (converted_files_paths l)
        (fun entry =>
           found <- path_exists (fst entry) ;;
           if found then unlink (fst entry) else ret tt)
  | [] =>
      tx (EReply MsgNoneConverted) ;; ret tt
  end.

(** [a / b] on integers; [None] is [ZeroDivisionError].  The quotient is
    the exact rational: the rounding of the floating-point division is
    not modelled. *)
Definition truediv (a b : Z) : option Q :=
  match b with
  | Z0 => None
  | Zpos p => Some (a # p)
  | Zneg p => Some (- a # p)
  end.

(** [((o - c) / o * 100) if o > 0 else 0] *)
Definition size_reduction_percent
    (total_original_size total_converted_size : Z) : option Q :=
  if total_original_size >? 0 then
    match truediv (total_original_size - total_converted_size)
                  total_original_size with
    | Some q => Some (q * 100)%Q
    | None => None
    end
  else Some 0%Q.

Definition final_status_text (l : locals) (total : nat) : option message :=
  match size_reduction_percent (total_original_size l)
                               (total_converted_size l) with
  | Some percent =>
      Some (MsgFinal (successfully_converted_count l) total
              (total_original_size l) (total_converted_size l) percent)
  | None => None
  end.

Definition summarize (status total : nat) : M unit :=
  s <- get ;;
  match final_status_text (loc s) total with
  | Some text => tx (EEdit status text) ;; ret tt
  | None => raise ZeroDivisionError
  end.

(** The end of the batch: the downloaded files are removed and the two
    keys of [user_data] reset. *)
Definition clear_session (pending_files_data : list (string * string))
    : M unit :=
  for_each pending_files_data
    (fun item =>
       found <- path_exists (fst item) ;;
       if found then try_except (unlink (fst item)) (fun _ => ret tt)
       else ret tt) ;;
  modify (set_user (fun _ => {| pending_images := Some [];
                                message_to_edit := None |})).

(** [query.data.split('_')[1].upper()] *)
Definition parse_target_format (data : string) : M string :=
  match split_on "_"%char data with
  | _ :: piece :: _ => ret (upper (str_upper w) piece)
  | _ => raise IndexError
  end.

(** What follows the loop. *)
Definition finish_batch (status : nat) (target_format : string)
    (pending_files_data : list (string * string)) : M unit :=
  deliver target_format ;;
  summarize status (length pending_files_data) ;;
  clear_session pending_files_data.

(** The [if] branch of the handler: one batch, from the first status
    message to the reset of the session. *)
Definition run_batch (target_format : string)
    (pending_files_data : list (string * string)) : M unit :=
  status <- tx (EReply (MsgPreparing (length pending_files_data)
                          target_format)) ;;
  modify (set_loc (fun _ => fresh_locals)) ;;
  convert_all status target_format pending_files_data ;;
  finish_batch status target_format pending_files_data.

Definition button_callback (data : string) : M unit :=
  tx EAnswer ;;
  try_except
    (target_format <- parse_target_format data ;;
     s <- get ;;
     match pending_images (user s) with
     | Some (item :: rest) => run_batch target_format (item :: rest)
     | _ => tx (EReply MsgNoImagesFound) ;; ret tt
     end)
    (fun _ => tx (EReply MsgCritical) ;; ret tt).

(** *** [get_image_info] and [handle_document] *)

(** [d[k] = d.get(k, 0) + 1] on a dictionary that keeps insertion order. *)
Fixpoint dict_incr (k : string) (d : list (string * nat))
    : list (string * nat) :=
  match d with
  | [] => [(k, 1%nat)]
  | (k', n) :: d' =>
      if bool_decide (k' = k) then (k', S n) :: d'
      else (k', n) :: dict_incr k d'
  end.

(** [img.format if img.format else "Unknown"] *)
Definition format_name (img : image) : string :=
  match img_format img with
  | Some f => if bool_decide (f = "") then "Unknown" else f
  | None => "Unknown"
  end.

(** One turn of the loop of [get_image_info]: a file that is gone is
    stepped over, a file that does not open has its size counted and its
    error logged. *)
Definition image_info_step (disk : gmap string file)
    (acc : Z * list (string * nat)) (path : string)
    : Z * list (string * nat) :=
  match disk !! path with
  | None => acc
  | Some f =>
      let total_size := fst acc + Z.of_N (f_size f) in
      match f_image f with
      | Some img => (total_size, dict_incr (format_name img) (snd acc))
      | None => (total_size, snd acc)
      end
  end.

Definition get_image_info (pending_images_data : list (string * string))
    : M message :=
  s <- get ;;
  let image_paths := map fst pending_images_data in
  let acc := fold_left (image_info_step (fs s)) image_paths (0, []) in
  ret (MsgStatus (length image_paths) (fst acc) (snd acc)).

(** What a document carries: its MIME type, its bytes once downloaded, and
    what [zipfile] finds in them ([None]: not a readable archive), as the
    top-level listing of the extraction directory in [os.listdir] order. *)
Record document := Document {
  mime_type : string;
  doc_file : file;
  doc_extracted : option (list (string * node))
}.

Definition IMAGE_EXTENSIONS : list string :=
  [".jpg"; ".jpeg"; ".png"; ".webp"; ".gif"; ".tiff"; ".bmp"; ".avif"].

(** [any(filename.lower().endswith(ext) for ext in [...])] *)
Definition has_image_extension (filename : string) : bool :=
  existsb (endswith (lower filename)) IMAGE_EXTENSIONS.

(** [os.path.isfile] *)
Definition isfile (n : node) : bool :=
  match n with
  | Regular _ => true
  | Directory _ => false
  end.

(** [open(path, 'rb').read()] *)
Definition read_node (n : node) : M file :=
  match n with
  | Regular f => ret f
  | Directory _ => raise IsADirectoryError
  end.

(** [if 'pending_images' not in context.user_data: ...] *)
Definition init_user_data : M unit :=
  modify (set_user (fun u =>
    match pending_images u with
    | Some _ => u
    | None => {| pending_images := Some []; message_to_edit := None |}
    end)).

(** [context.user_data['pending_images'].append(entry)] *)
Definition append_pending (entry : string * string) : M unit :=
  fun s =>
    match pending_images (user s) with
    | Some l =>
        (Ok tt,
         set_user (fun u => {| pending_images := Some (l ++ [entry])%list;
                               message_to_edit := message_to_edit u |}) s)
    | None => (Raise KeyError, s)
    end.

Definition set_message_to_edit (h : nat) : M unit :=
  modify (set_user (fun u => {| pending_images := pending_images u;
                                message_to_edit := Some h |})).

(** The body of the loop over [os.listdir(temp_extract_dir)]. *)
Definition stage_entry (entry : string * node) : M unit :=
  let filename_in_zip := fst entry in
  if isfile (snd entry) && has_image_extension filename_in_zip then
    temp_image_storage <- named_temporary_file ("_" ++ filename_in_zip) ;;
    content <- read_node (snd entry) ;;
    write_file temp_image_storage content ;;
    append_pending (temp_image_storage, filename_in_zip)
  else ret tt.

Definition stage_extracted (entries : list (string * node)) : M unit :=
  for_each entries stage_entry.

(** The status message: the one already shown is edited, or a new one is
    sent and remembered. *)
Definition show_status (text : message) : M unit :=
  s <- get ;;
  match message_to_edit (user s) with
  | Some h =>
      try_except
        (tx (EEdit h text) ;; ret tt)
        (fun _ => h' <- tx (EReply text) ;; set_message_to_edit h')
  | None => h' <- tx (EReply text) ;; set_message_to_edit h'
  end.

Definition handle_document (doc : document) : M unit :=
  try_except
    (if bool_decide (mime_type doc = "application/zip") then
       init_user_data ;;
       tx EGetFile ;;
       zip_download_path <- named_temporary_file ".zip" ;;
       tx (EDownload zip_download_path) ;;
       write_file zip_download_path (doc_file doc) ;;
       entries <- match doc_extracted doc with
                  | Some entries => ret entries
                  | None => raise BadZipFile
                  end ;;
       stage_extracted entries ;;
       unlink zip_download_path ;;
       s <- get ;;
       match pending_images (user s) with
       | Some (item :: rest) =>
           text <- get_image_info (item :: rest) ;;
           show_status text
       | _ => tx (EReply MsgZipEmpty) ;; ret tt
       end
     else tx (EReply MsgNotZip) ;; ret tt)
    (fun _ => tx (EReply MsgDocumentError) ;; ret tt).

End Handlers.

(** *** Reading a run *)

(** The progress reports of a trace, by the count they show. *)
Definition progress_counts (t : list event) : list nat :=
  omap (fun e => match e with
                 | EEdit _ (MsgProgress n _ _ _) => Some n
                 | _ => None
                 end) t.

(** What went to the encoder: the format and the image of each
    [img.save]. *)
Definition saved_images (t : list event) : list (string * image) :=
  omap (fun e => match e with
                 | ESave _ target_format img => Some (target_format, img)
                 | _ => None
                 end) t.

(** An image that went to the encoder had the colour-mode rule applied. *)
Definition normalized_for (target_format : string) (p : string * image)
    : Prop :=
  exists img, p = (target_format, normalize_mode target_format img).

(** The archives that were sent, by their members. *)
Definition sent_archives (t : list event) : list (list string) :=
  omap (fun e => match e with
                 | ESendDocument _ members _ _ => Some members
                 | _ => None
                 end) t.

(** The entries of the extraction directory that [handle_document] stages:
    regular files with the name of an image. *)
Definition accepted (entry : string * node) : bool :=
  isfile (snd entry) && has_image_extension (fst entry).

(** An entry over which the staging loop does not stop: it is passed
    over, or the temporary file named after it can be created. *)
Definition stageable (entry : string * node) : bool :=
  negb (accepted entry) || fits_temporary_name ("_" ++ fst entry).

(** A listing with every directory emptied. *)
Definition shallow (entry : string * node) : string * node :=
  match snd entry with
  | Regular _ => entry
  | Directory _ => (fst entry, Directory [])
  end.

Definition shallow_document (doc : document) : document :=
  {| mime_type := mime_type doc;
     doc_file := doc_file doc;
     doc_extracted := map shallow <$> doc_extracted doc |}.

(** A program leaves an observation of the state as it found it, whatever
    its outcome. *)
Definition keeps {A B : Type} (observe : state -> B) (m : M A) : Prop :=
  forall s r s', m s = (r, s') -> observe s' = observe s.

(** The events of building and sending the archive. *)
Definition is_archive_event (e : event) : bool :=
  match e with
  | EZipCreate _ | EZipWrite _ _ | ESendDocument _ _ _ _ => true
  | _ => false
  end.

Definition archive_events (t : list event) : list event :=
  filter (fun e => is_archive_event e = true) t.

(** The session is clear: no pending image, no status message. *)
Definition cleared (u : user_data) : Prop :=
  pending_images u = Some [] /\ message_to_edit u = None.

(** What a run leaves behind, measured against the length [n] of the
    batch: at most [n] results and [n] successes, the progress reports of
    the successes whose count passed the test, only images that went
    through the colour-mode rule, and no archive when there is no
    result. *)
Definition batch_facts (target_format : string) (n : nat) (s s' : state)
    : Prop :=
  let c' := successfully_converted_count (loc s') in
  (length (converted_files_paths (loc s')) <= n)%nat
  /\ (c' <= n)%nat
  /\ progress_counts (trace s')
     = (progress_counts (trace s)
        ++ filter (fun k => progress_due k n) (seq 1 c'))%list
  /\ (exists saved,
        saved_images (trace s') = (saved_images (trace s) ++ saved)%list
        /\ Forall (normalized_for target_format) saved)
  /\ (converted_files_paths (loc s') = [] ->
      archive_events (trace s') = archive_events (trace s)).

End Bot.

(* ===================================================================== *)
(** ** Concrete runs *)
(* ===================================================================== *)

Module Scenarios.
Import Strings Imaging Bot.

(** A transport that never fails, temporary files numbered in order, a
    clock that answers with the pattern it is asked, and an encoder that
    writes as many bytes as the image has pixel data (and fails on none).
    The runs below send callback data in ASCII, for which [str_upper] is
    not consulted. *)
Definition demo_world : world :=
  {| tx_ok := fun _ => true;
     tmp_name := fun n suffix => "/tmp/tmp" ++ pretty n ++ suffix;
     clock := fun _ pattern => pattern;
     encode := fun img _ =>
       if (img_pixels img =? 0)%N then None else Some (img_pixels img);
     str_upper := map_string upper_ascii |}.

Definition picture (mode : string) (pixels : N) : image :=
  {| img_format := Some "PNG"; img_mode := mode;
     img_size := (10, 10); img_pixels := pixels |}.

(** Two pictures of 50 KB and 30 KB that encode to 20 KB and 15 KB, and a
    10 KB file that is not an image. *)
Definition disk : gmap string file :=
  <["/in/a" := File 51200 (Some (picture "RGB" 20480))]>
    (<["/in/b" := File 30720 (Some (picture "RGB" 15360))]>
       (<["/in/c" := File 10240 None]> ∅)).

Definition session (pending : list (string * string)) : state :=
  {| fs := disk; stats := Stats.initial;
     user := {| pending_images := Some pending;
                message_to_edit := Some 0%nat |};
     loc := fresh_locals; trace := []; temps := 0; ticks := 0 |}.

Definition broken_first : list (string * string) :=
  [("/in/c", "c.png"); ("/in/a", "a.png"); ("/in/b", "b.png")].

Definition broken_second : list (string * string) :=
  [("/in/a", "a.png"); ("/in/c", "c.png"); ("/in/b", "b.png")].

(** The top level of an archive of five files, two of them not images. *)
Definition five_files : list (string * node) :=
  [("one.JPG", Regular (File 10 (Some (picture "RGB" 5))));
   ("notes.txt", Regular (File 3 None));
   ("two.png", Regular (File 20 (Some (picture "RGBA" 7))));
   ("three.webp", Regular (File 30 (Some (picture "RGB" 9))));
   ("movie.mp4", Regular (File 40 None))].

(** The top level of an archive with a directory that hides an image and a
    directory named like an image. *)
Definition nested : list (string * node) :=
  [("album", Directory [("inner.png",
                         Regular (File 20 (Some (picture "RGB" 7))))]);
   ("folder.png", Directory [])].

Definition zip_of (entries : list (string * node)) : document :=
  {| mime_type := "application/zip";
     doc_file := File 100 None;
     doc_extracted := Some entries |}.

Definition no_session : state :=
  {| fs := ∅; stats := Stats.initial;
     user := {| pending_images := None; message_to_edit := None |};
     loc := fresh_locals; trace := []; temps := 0; ticks := 0 |}.

(** The modes Pillow's JPEG encoder writes; [img.save] raises on every
    other one ("cannot write mode LA as JPEG"). *)
Definition JPEG_MODES : list string :=
  ["1"; "L"; "RGB"; "RGBX"; "CMYK"; "YCbCr"].

(** The world of [demo_world] with an encoder that is as strict as
    Pillow's about the modes of a JPEG. *)
Definition pillow_world : world :=
  {| tx_ok := fun _ => true;
     tmp_name := fun n suffix => "/tmp/tmp" ++ pretty n ++ suffix;
     clock := fun _ pattern => pattern;
     encode := fun img target_format =>
       if bool_decide (target_format = "JPEG")
          && negb (str_in (img_mode img) JPEG_MODES)
       then None
       else if (img_pixels img =? 0)%N then None else Some (img_pixels img);
     str_upper := map_string upper_ascii |}.

(** A session with one staged picture of a given mode, 40 KB on disk, that
    encodes to 8 KB. *)
Definition one_picture (mode : string) : state :=
  {| fs := <["/in/g" := File 40960 (Some (picture mode 8192))]> ∅;
     stats := Stats.initial;
     user := {| pending_images := Some [("/in/g", "g.png")];
                message_to_edit := Some 0%nat |};
     loc := fresh_locals; trace := []; temps := 0; ticks := 0 |}.




End Scenarios.

(* ===================================================================== *)
(** ** The rest of the bot *)
(* ===================================================================== *)

(** *** [format_size] and [stats_command] *)

Module Admin.
Import Strings Bot.

(** The loop of [format_size] over the units that are left; the value is
    the exact quotient (the code divides floating-point numbers by 1024,
    which is exact short of underflow).  After the last unit the value
    has been divided once more and is labelled GB all the same. *)
Fixpoint format_size_from (units : list string) (size_bytes : Q)
    : Q * string :=
  match units with
  | [] => (size_bytes, "GB")
  | unit :: rest =>
      if negb (Qle_bool 1024 size_bytes) then (size_bytes, unit)
      else format_size_from rest (size_bytes / 1024)%Q
  end.

(** [format_size]: the number and the unit of the text; the rounding of
    the number to one decimal is not modelled. *)
Definition format_size (size_bytes : Z) : Q * string :=
  format_size_from ["B"; "KB"; "MB"; "GB"] (inject_Z size_bytes).

(** The four texts of [stats_command], with what is interpolated. *)
Inductive stats_reply :=
| StatsDenied
    (* "You don't have permission to view statistics." *)
| StatsToday (images : Z) (original converted saved : Q * string)
    (* "Today's Statistics: ..." *)
| StatsMonth (images : Z) (original converted saved : Q * string)
    (* "This Month's Statistics: ..." *)
| StatsOverall (total_images : Z) (original converted saved : Q * string)
               (by_format : gmap string Z).
    (* "Overall Statistics: ... Conversions by format: ..." ; the order of
       the format lines is not modelled *)

(** [not ADMIN_ID or str(update.effective_user.id) != ADMIN_ID] *)
Definition not_admin (ADMIN_ID : option string) (user_id : Z) : bool :=
  match ADMIN_ID with
  | None => true
  | Some admin =>
      bool_decide (admin = "") || negb (bool_decide (pretty user_id = admin))
  end.

Definition period_line
    (make : Z -> Q * string -> Q * string -> Q * string -> stats_reply)
    (p : Stats.period) : stats_reply :=
  make (Stats.images p)
       (format_size (Stats.size_original p))
       (format_size (Stats.size_converted p))
       (format_size (Stats.size_original p - Stats.size_converted p)).

(** [stats_command]: what it passes to [reply_text].  [args] is
    [context.args]; [today] and [month] are the reading of the clock. *)
Definition stats_command (ADMIN_ID : option string) (user_id : Z)
    (args : list string) (today month : string) (st : Stats.t)
    : stats_reply :=
  if not_admin ADMIN_ID user_id then StatsDenied else
  let period := match args with arg :: _ => arg | [] => "all" end in
  if bool_decide (period = "today") then
    period_line StatsToday
      (default Stats.zero_period (Stats.daily_stats st !! today))
  else if bool_decide (period = "month") then
    period_line StatsMonth
      (default Stats.zero_period (Stats.monthly_stats st !! month))
  else
    StatsOverall (Stats.total_images st)
      (format_size (Stats.total_size_original st))
      (format_size (Stats.total_size_converted st))
      (format_size (Stats.total_size_original st
                    - Stats.total_size_converted st))
      (Stats.conversions_by_format st).

(** The size totals agree: the overall totals are the sums over the days
    and over the months, and the image total is the sum over the months. *)
Definition sizes_consistent (s : Stats.t) : Prop :=
  Stats.total_images s = Stats.sum_with Stats.images (Stats.monthly_stats s)
  /\ Stats.total_size_original s
     = Stats.sum_with Stats.size_original (Stats.daily_stats s)
  /\ Stats.total_size_original s
     = Stats.sum_with Stats.size_original (Stats.monthly_stats s)
  /\ Stats.total_size_converted s
     = Stats.sum_with Stats.size_converted (Stats.daily_stats s)
  /\ Stats.total_size_converted s
     = Stats.sum_with Stats.size_converted (Stats.monthly_stats s).

End Admin.

(** *** [get_format_buttons] *)

Module Keyboard.
Import Strings Bot.

(** An [InlineKeyboardButton]: its label and its [callback_data]. *)
Record button := Button { text : string; callback_data : string }.

Definition format_button (format_name : string) : button :=
  {| text := format_name;
     callback_data := "convert_" ++ lower format_name |}.

(** The loop of [get_format_buttons] from index [i] on; [n] is the length
    of the whole table. *)
Fixpoint keyboard_loop (n i : nat) (names : list string)
    (keyboard : list (list button)) (row : list button)
    : list (list button) :=
  match names with
  | [] => keyboard
  | format_name :: rest =>
      let row := (row ++ [format_button format_name])%list in
      if (length row =? 2)%nat || (i =? n - 1)%nat
      then keyboard_loop n (S i) rest (keyboard ++ [row])%list []
      else keyboard_loop n (S i) rest keyboard row
  end.

Definition keyboard_rows (names : list string) : list (list button) :=
  keyboard_loop (length names) 0 names [] [].

Definition get_format_buttons : list (list button) :=
  keyboard_rows (map fst SUPPORTED_FORMATS).

(** A format name that survives the trip through the callback data: the
    case of its letters comes back, and it holds no underscore. *)
Definition plain_name (w : world) (format_name : string) : Prop :=
  upper (str_upper w) (lower format_name) = format_name
  /\ split_on "_"%char (lower format_name) = [lower format_name].

End Keyboard.

(** *** [handle_image] *)

Module Photo.
Import Strings Imaging Bot.

(** One size of a photo: its [file_unique_id] and the bytes behind its
    [file_id]. *)
Record photo_size := PhotoSize {
  file_unique_id : string;
  photo_file : file
}.

Section Handler.
Variable w : world.

(** The [try] block of [handle_image]; [sizes] is [update.message.photo].
    The [except] clause around it logs the error and replies "Sorry, there
    was an error processing your image. Please try again.". *)
Definition handle_image_try (sizes : list photo_size) : M unit :=
  init_user_data ;;
  photo <- match last sizes with
           | Some photo => ret photo
           | None => raise IndexError
           end ;;
  tx w EGetFile ;;
  let original_filename := "image_" ++ file_unique_id photo ++ ".jpg" in
  temp_file <- named_temporary_file w ("_" ++ original_filename) ;;
  tx w (EDownload temp_file) ;;
  write_file temp_file (photo_file photo) ;;
  append_pending (temp_file, original_filename) ;;
  s <- get ;;
  status_text <- get_image_info (default [] (pending_images (user s))) ;;
  show_status w status_text.

End Handler.
End Photo.

(** *** Reading the disk *)

Module Disk.
Import Strings Imaging Bot.

(** The length of the file at a path, 0 when there is none. *)
Definition size_on_disk (disk : gmap string file) (path : string) : Z :=
  match disk !! path with
  | Some f => Z.of_N (f_size f)
  | None => 0
  end.

(** Whether there is a file at the path that [Image.open] accepts. *)
Definition opens (disk : gmap string file) (path : string) : bool :=
  match disk !! path with
  | Some f => bool_decide (is_Some (f_image f))
  | None => false
  end.

(** The images a table of formats accounts for. *)
Definition counted (formats : list (string * nat)) : nat :=
  foldr (fun p acc => (snd p + acc)%nat) 0%nat formats.

(** Temporary names tell their numbers apart. *)
Definition distinct_names (w : world) : Prop :=
  forall n m suffix suffix',
    tmp_name w n suffix = tmp_name w m suffix' -> n = m.

End Disk.

(** *** Reading a run of [button_callback] *)

Module Callback.
Import Strings Imaging Bot.

(** The target format a callback names, when it names one:
    [query.data.split('_')[1].upper()] without its exception. *)
Definition target_of (w : world) (data : string) : option string :=
  match split_on "_"%char data with
  | _ :: piece :: _ => Some (upper (str_upper w) piece)
  | _ => None
  end.

(** Two states that differ in their traces at most. *)
Definition same_but_trace (s s' : state) : Prop :=
  fs s' = fs s /\ stats s' = stats s /\ user s' = user s
  /\ loc s' = loc s /\ temps s' = temps s /\ ticks s' = ticks s.

(** The name an image gets in the archive: the root of its name and the
    extension of the target format. *)
Definition archive_name (ext original_filename : string) : string :=
  fst (splitext original_filename) ++ ext.

(** The books of a run: the statistics move with the locals of the
    handler.  Images recorded and bytes written follow the count and the
    converted total exactly; the original total of the locals grows at
    least as much as the recorded one; every success wrote at least one
    byte; and the two agreements of the counters are kept. *)
Definition ledger (s s' : state) : Prop :=
  let l := loc s in
  let l' := loc s' in
  Stats.total_images (stats s') - Z.of_nat (successfully_converted_count l')
  = Stats.total_images (stats s) - Z.of_nat (successfully_converted_count l)
  /\ Stats.total_size_converted (stats s') - total_converted_size l'
     = Stats.total_size_converted (stats s) - total_converted_size l
  /\ total_original_size l - Stats.total_size_original (stats s)
     <= total_original_size l' - Stats.total_size_original (stats s')
  /\ total_converted_size l - Z.of_nat (successfully_converted_count l)
     <= total_converted_size l' - Z.of_nat (successfully_converted_count l')
  /\ (Stats.consistent (stats s) -> Stats.consistent (stats s'))
  /\ (Admin.sizes_consistent (stats s) -> Admin.sizes_consistent (stats s')).

(** The loop that removes files: each turn leaves the disk without the
    file its element names, and ends well. *)
Definition removes {A : Type} (path : A -> string) (body : A -> M unit)
    : Prop :=
  forall x s, exists s',
    body x s = (Ok tt, s') /\ fs s' = delete (path x) (fs s).

End Callback.

(** *** More concrete runs *)

Module Scenarios2.
Import Strings Imaging Bot.

(** Temporary names that differ whenever their numbers differ: the number
    in unary, a dot, the suffix. *)
Fixpoint unary_name (n : nat) (suffix : string) : string :=
  match n with
  | O => String "."%char suffix
  | S n' => String "x"%char (unary_name n' suffix)
  end.

Definition tidy_world : world :=
  {| tx_ok := fun _ => true;
     tmp_name := unary_name;
     clock := fun _ pattern => pattern;
     encode := fun img _ =>
       if (img_pixels img =? 0)%N then None else Some (img_pixels img);
     str_upper := map_string upper_ascii |}.

(** A transport that is down. *)
Definition offline_world : world :=
  {| tx_ok := fun _ => false;
     tmp_name := unary_name;
     clock := fun _ pattern => pattern;
     encode := fun _ _ => None;
     str_upper := map_string upper_ascii |}.

(** A transport that goes down after [k] events. *)
Definition drop_after (k : nat) : world :=
  {| tx_ok := fun n => (n <? k)%nat;
     tmp_name := unary_name;
     clock := fun _ pattern => pattern;
     encode := fun img _ =>
       if (img_pixels img =? 0)%N then None else Some (img_pixels img);
     str_upper := map_string upper_ascii |}.

Definition busy_stats : Stats.t :=
  Stats.update_conversion_stats 51200 20480 "WEBP" "2024-05-01" "2024-05"
    (Stats.update_conversion_stats 30720 15360 "JPEG" "2024-04-30" "2024-04"
       Stats.initial).

Definition a_photo : list Photo.photo_size :=
  [Photo.PhotoSize "small" (File 100 (Some (Scenarios.picture "RGB" 1)));
   Photo.PhotoSize "AQADBAAD" (File 900 (Some (Scenarios.picture "RGB" 9)))].

End Scenarios2.

(* ===================================================================== *)
(** ** Properties *)
(* ===================================================================== *)

Import Strings Imaging Bot.
Local Open Scope list_scope.

(** *** Colour modes *)

Lemma str_in_true x l : str_in x l = true <-> x ∈ l.
Proof. unfold str_in. apply bool_decide_eq_true. Qed.

Lemma str_in_false x l : str_in x l = false <-> x ∉ l.
Proof. unfold str_in. apply bool_decide_eq_false. Qed.

Lemma img_mode_convert mode img : img_mode (convert mode img) = mode.
Proof. reflexivity. Qed.

(** *** Statistics *)

Section SumOverDict.
Context {V : Type} (f : V -> Z).

Lemma sum_with_insert_fresh (d : gmap string V) k v :
  d !! k = None -> Stats.sum_with f (<[k := v]> d) = f v + Stats.sum_with f d.
Proof.
  intros Hk. unfold Stats.sum_with.
  apply (map_fold_insert_L (fun _ v acc => f v + acc)); [| exact Hk].
  intros. lia.
Qed.

(** Assigning [d[k] = v] replaces the old contribution of [k], if any. *)
Lemma sum_with_insert (d : gmap string V) k v :
  Stats.sum_with f (<[k := v]> d)
  = Stats.sum_with f d
    - match d !! k with Some old => f old | None => 0 end + f v.
Proof.
  destruct (d !! k) as [old |] eqn:Hk.
  - rewrite <- (insert_delete_eq d k v).
    rewrite sum_with_insert_fresh by apply lookup_delete_eq.
    rewrite <- (insert_delete_id d k old Hk) at 2.
    rewrite sum_with_insert_fresh by apply lookup_delete_eq.
    lia.
  - rewrite sum_with_insert_fresh by exact Hk. lia.
Qed.

End SumOverDict.

Lemma sum_values_bump_format k d :
  Stats.sum_values (Stats.bump_format k d) = Stats.sum_values d + 1.
Proof.
  unfold Stats.sum_values, Stats.bump_format. rewrite sum_with_insert.
  destruct (d !! k); simpl; lia.
Qed.

Lemma sum_images_bump_period o c k d :
  Stats.sum_images (Stats.bump_period o c k d) = Stats.sum_images d + 1.
Proof.
  unfold Stats.sum_images, Stats.bump_period. rewrite sum_with_insert.
  destruct (d !! k); simpl; lia.
Qed.

(** C7: the counters of a fresh statistics dictionary agree (all zero), and
    [update_conversion_stats] keeps them in agreement; it adds exactly one
    to the total, to the counter of the chosen format and to the image
    counter of the current day. *)
Theorem C7_counters_stay_consistent :
  Stats.consistent Stats.initial
  /\ forall (s : Stats.t) (original_size converted_size : Z)
            (target_format today month : string),
       let s' := Stats.update_conversion_stats original_size converted_size
                   target_format today month s in
       (Stats.consistent s -> Stats.consistent s')
       /\ Stats.total_images s' = Stats.total_images s + 1
       /\ Stats.conversions_by_format s' !! target_format
          = Some (default 0 (Stats.conversions_by_format s !! target_format)
                  + 1)
       /\ Stats.images <$> (Stats.daily_stats s' !! today)
          = Some (Stats.images
                    (default Stats.zero_period (Stats.daily_stats s !! today))
                  + 1).
Proof.
  split.
  - split; reflexivity.
  - intros s o c fmt today month s'. subst s'. simpl.
    split; [| split; [| split]].
    + intros [Hf Hd]. split; simpl.
      * rewrite sum_values_bump_format. lia.
      * rewrite sum_images_bump_period. lia.
    + reflexivity.
    + unfold Stats.bump_format. apply lookup_insert_eq.
    + unfold Stats.bump_period. rewrite lookup_insert_eq. reflexivity.
Qed.

Lemma C7_counters_stay_consistent_witness :
  Stats.consistent
    (Stats.update_conversion_stats 51200 20480 "WEBP" "2024-05-01" "2024-05"
       Stats.initial).
Proof.
  apply (proj2 C7_counters_stay_consistent
           Stats.initial 51200 20480 "WEBP" "2024-05-01" "2024-05").
  apply (proj1 C7_counters_stay_consistent).
Defined.

(** *** The size reduction *)

(** C8: the percentage of the final summary never divides by zero, and a
    batch whose total original size is 0 reports exactly 0. *)
Theorem C8_percent_never_divides_by_zero :
  (forall total_original_size total_converted_size,
     is_Some (size_reduction_percent total_original_size
                                     total_converted_size))
  /\ (forall total_converted_size,
        size_reduction_percent 0 total_converted_size = Some 0%Q)
  /\ (forall (l : locals) (total : nat),
        total_original_size l = 0 ->
        final_status_text l total
        = Some (MsgFinal (successfully_converted_count l) total
                  0 (total_converted_size l) 0%Q)).
Proof.
  split; [| split].
  - intros o c. unfold size_reduction_percent.
    destruct (Z.gtb_spec o 0) as [Hpos | Hle]; [| eauto].
    destruct o; try lia. simpl. eauto.
  - reflexivity.
  - intros l total H0. unfold final_status_text. rewrite H0. reflexivity.
Qed.

Lemma C8_percent_never_divides_by_zero_witness :
  final_status_text fresh_locals 3
  = Some (MsgFinal 0 3 0 0 0%Q).
Proof.
  apply (proj2 (proj2 C8_percent_never_divides_by_zero) fresh_locals 3%nat).
  reflexivity.
Defined.

(** *** Reading traces *)

Lemma progress_counts_app t1 t2 :
  progress_counts (t1 ++ t2) = progress_counts t1 ++ progress_counts t2.
Proof. apply omap_app. Qed.

Lemma saved_images_app t1 t2 :
  saved_images (t1 ++ t2) = saved_images t1 ++ saved_images t2.
Proof. apply omap_app. Qed.

Lemma archive_events_app t1 t2 :
  archive_events (t1 ++ t2) = archive_events t1 ++ archive_events t2.
Proof. apply filter_app. Qed.

Ltac trace_simpl :=
  rewrite ?progress_counts_app, ?saved_images_app, ?archive_events_app;
  simpl; rewrite ?app_nil_r.

(** *** What a program leaves alone *)

Section Keeps.
Context {B : Type} (observe : state -> B).

Lemma keeps_ret {A} (a : A) : keeps observe (ret a).
Proof. intros s r s' [= <- <-]. reflexivity. Qed.

Lemma keeps_raise {A} e : keeps observe (@raise A e).
Proof. intros s r s' [= <- <-]. reflexivity. Qed.

Lemma keeps_get : keeps observe get.
Proof. intros s r s' [= <- <-]. reflexivity. Qed.

Lemma keeps_bind {A C} (m : M A) (k : A -> M C) :
  keeps observe m -> (forall a, keeps observe (k a)) ->
  keeps observe (bind m k).
Proof.
  intros Hm Hk s r s'. unfold bind.
  destruct (m s) as [[a | e] s1] eqn:Hms.
  - intros Hks. rewrite (Hk a _ _ _ Hks). eapply Hm, Hms.
  - intros [= <- <-]. eapply Hm, Hms.
Qed.

Lemma keeps_try_except {A} (m : M A) (h : exn -> M A) :
  keeps observe m -> (forall e, keeps observe (h e)) ->
  keeps observe (try_except m h).
Proof.
  intros Hm Hh s r s'. unfold try_except.
  destruct (m s) as [[a | e] s1] eqn:Hms.
  - intros [= <- <-]. eapply Hm, Hms.
  - intros Hhs. rewrite (Hh e _ _ _ Hhs). eapply Hm, Hms.
Qed.

Lemma keeps_for_each {A} (l : list A) (body : A -> M unit) :
  (forall x, keeps observe (body x)) -> keeps observe (for_each l body).
Proof.
  intros Hbody. induction l as [| x l IH]; simpl.
  - apply keeps_ret.
  - apply keeps_bind; [apply Hbody | intros _; exact IH].
Qed.

Lemma keeps_modify (f : state -> state) :
  (forall s, observe (f s) = observe s) -> keeps observe (modify f).
Proof. intros Hf s r s' [= <- <-]. apply Hf. Qed.

Lemma keeps_path_exists path : keeps observe (path_exists path).
Proof. intros s r s' [= <- <-]. reflexivity. Qed.

Lemma keeps_getsize path : keeps observe (getsize path).
Proof.
  intros s r s'. unfold getsize.
  destruct (fs s !! path); intros [= <- <-]; reflexivity.
Qed.

Lemma keeps_unlink path :
  (forall g s, observe (set_fs g s) = observe s) ->
  keeps observe (unlink path).
Proof.
  intros Hfs s r s'. unfold unlink.
  destruct (fs s !! path); intros [= <- <-]; [apply Hfs | reflexivity].
Qed.

Lemma keeps_tx (w : world) e :
  (forall s, observe (set_trace (fun t => t ++ [e]) s) = observe s) ->
  keeps observe (tx w e).
Proof.
  intros He s r s'. unfold tx.
  destruct (tx_ok w (length (trace s))); intros [= <- <-]; apply He.
Qed.

Lemma keeps_now (w : world) pattern :
  (forall g s, observe (set_ticks g s) = observe s) ->
  keeps observe (now w pattern).
Proof.
  intros Ht. unfold now.
  apply keeps_bind; [apply keeps_get | intros s0].
  apply keeps_bind; [apply keeps_modify, Ht | intros _; apply keeps_ret].
Qed.

End Keeps.

Lemma zip_write_all_keeps {B} (observe : state -> B) files :
  (forall e s, is_archive_event e = true ->
               observe (set_trace (fun t => t ++ [e]) s) = observe s) ->
  keeps observe (zip_write_all files).
Proof.
  intros He. induction files as [| [file_path arcname] rest IH]; simpl.
  - apply keeps_ret.
  - apply keeps_bind; [apply keeps_path_exists | intros found].
    destruct found; [| apply keeps_raise].
    apply keeps_bind; [apply keeps_modify; intros s; apply He; reflexivity |].
    intros _. apply keeps_bind; [exact IH | intros ?; apply keeps_ret].
Qed.

(** Stepping through a program that keeps an observation: the structure
    is taken apart, and what is left is one equation per primitive. *)
Ltac keeps_step :=
  first
    [ apply zip_write_all_keeps; intros ? ? ?
    | apply keeps_ret | apply keeps_raise | apply keeps_get
    | apply keeps_path_exists | apply keeps_getsize
    | apply keeps_bind; [| intros ?]
    | apply keeps_try_except; [| intros ?]
    | apply keeps_for_each; intros ?
    | apply keeps_unlink; intros ? ?
    | apply keeps_tx; intros ?
    | apply keeps_now; intros ? ?
    | apply keeps_modify; intros ?
    | match goal with
      | |- keeps _ (if ?b then _ else _) => destruct b eqn:?
      | |- keeps _ (match ?x with _ => _ end) => destruct x eqn:?
      end ].

Ltac keeps_auto := repeat keeps_step; try reflexivity.

(** After the loop nothing is converted any more: the locals stay, and no
    progress report and no image goes out. *)
Lemma finish_batch_keeps_loc w status target_format pending :
  keeps loc (finish_batch w status target_format pending).
Proof.
  unfold finish_batch, deliver, summarize, clear_session, write_file, log.
  keeps_auto.
Qed.

Lemma finish_batch_keeps_progress w status target_format pending :
  keeps (fun s => progress_counts (trace s))
        (finish_batch w status target_format pending).
Proof.
  unfold finish_batch, deliver, summarize, clear_session, write_file, log.
  keeps_auto; simpl; trace_simpl; try reflexivity.
  - match goal with
    | He : is_archive_event ?e = true |- _ =>
        destruct e; try discriminate He; simpl; apply app_nil_r
    end.
  - unfold final_status_text in *.
    destruct (size_reduction_percent _ _); simplify_eq. apply app_nil_r.
Qed.

Lemma clear_session_keeps_trace pending : keeps trace (clear_session pending).
Proof. unfold clear_session. keeps_auto. Qed.

Lemma clear_session_clears pending s :
  exists s', clear_session pending s = (Ok tt, s') /\ cleared (user s').
Proof.
  unfold clear_session.
  assert (Hloop : exists s1,
             for_each pending
               (fun item =>
                  found <- path_exists (fst item) ;;
                  (if found
                   then try_except (unlink (fst item)) (fun _ => ret tt)
                   else ret tt)) s = (Ok tt, s1)).
  { revert s. induction pending as [| item rest IH]; intros s; simpl.
    - eexists. reflexivity.
    - unfold bind at 1. unfold path_exists at 1. unfold bind at 1.
      destruct (bool_decide (is_Some (fs s !! item.1))) eqn:Hfound.
      + unfold try_except, unlink.
        destruct (fs s !! item.1); simpl; apply IH.
      + simpl. apply IH. }
  destruct Hloop as [s1 Hs1]. unfold bind at 1. rewrite Hs1.
  eexists. split; [reflexivity | split; reflexivity].
Qed.


(** *** One item of the batch *)

Ltac unfold_item :=
  unfold process_item, convert_one, skip_item, image_save,
    update_conversion_stats, named_temporary_file, lookup_format, now,
    write_file, log, tx, path_exists, getsize, unlink, image_open,
    try_except, bind, ret, raise, get, modify in *.

(** What one turn of the loop does: the session and the archive are not
    touched; either the item is passed over (skipped or failed) and the
    list of results, the count and the progress reports are as before, or
    it is converted, and then there is one more result, the count is one
    higher and a progress report is sent exactly when the test on the new
    count says so. *)
Lemma process_item_spec w status target_format total item s r s' :
  process_item w status target_format total item s = (r, s') ->
  let l := loc s in
  let l' := loc s' in
  user s' = user s
  /\ archive_events (trace s') = archive_events (trace s)
  /\ ((converted_files_paths l' = converted_files_paths l
       /\ successfully_converted_count l' = successfully_converted_count l
       /\ progress_counts (trace s') = progress_counts (trace s))
      \/ (r = Ok tt
          /\ (exists entry,
                converted_files_paths l' = converted_files_paths l ++ [entry])
          /\ successfully_converted_count l'
             = S (successfully_converted_count l)
          /\ progress_counts (trace s')
             = progress_counts (trace s)
               ++ (if progress_due (S (successfully_converted_count l)) total
                   then [S (successfully_converted_count l)] else [])))
  /\ (exists saved,
        saved_images (trace s') = saved_images (trace s) ++ saved
        /\ Forall (normalized_for target_format) saved).
Proof.
  intros Hrun. unfold_item. simpl in Hrun.
  repeat (case_match; simplify_eq/=).
  all: trace_simpl.
  all: split; [reflexivity | split; [reflexivity | split]].
  all: try (eexists; split; [rewrite app_nil_r; reflexivity | constructor];
            fail).
  all: try (eexists; split;
            [reflexivity | repeat constructor; eexists; reflexivity]; fail).
  all: try (left; repeat split; reflexivity).
  all: right; repeat split; eauto.
Qed.

(** What a report shows: whatever one turn of the loop sends as an edit of
    the status message is the progress report with the count and the byte
    totals as they stand after that turn. *)
Lemma process_item_report w status target_format total item s r s' :
  process_item w status target_format total item s = (r, s') ->
  exists new,
    trace s' = trace s ++ new
    /\ forall h m,
         EEdit h m ∈ new ->
         h = status
         /\ m = MsgProgress (successfully_converted_count (loc s')) total
                  (total_original_size (loc s'))
                  (total_converted_size (loc s')).
Proof.
  intros Hrun. unfold_item. simpl in Hrun.
  repeat (case_match; simplify_eq/=).
  all: rewrite <- ?app_assoc; simpl.
  all: try (exists []; rewrite app_nil_r; split; [reflexivity |];
            intros h m Hin; inversion Hin; fail).
  all: eexists; (split; [reflexivity |]); intros h m Hin;
    repeat (apply elem_of_cons in Hin as [Hin | Hin];
            [try discriminate Hin; injection Hin as -> ->;
             split; reflexivity |]);
    apply elem_of_nil in Hin; destruct Hin.
Qed.

(** *** The loop *)

Lemma filter_progress_step c n total :
  filter (fun k => progress_due k total) (seq (S c) (S n))
  = (if progress_due (S c) total then [S c] else [])
    ++ filter (fun k => progress_due k total) (seq (S (S c)) n).
Proof.
  simpl seq. destruct (progress_due (S c) total) eqn:Hdue.
  - rewrite filter_cons_True by (rewrite Hdue; exact I). reflexivity.
  - rewrite filter_cons_False by (rewrite Hdue; intros []). reflexivity.
Qed.

Lemma loop_spec w status target_format total items :
  forall s r s',
    for_each items (process_item w status target_format total) s = (r, s') ->
    let c := successfully_converted_count (loc s) in
    let c' := successfully_converted_count (loc s') in
    user s' = user s
    /\ archive_events (trace s') = archive_events (trace s)
    /\ (c <= c' <= c + length items)%nat
    /\ length (converted_files_paths (loc s'))
       = (length (converted_files_paths (loc s)) + (c' - c))%nat
    /\ progress_counts (trace s')
       = progress_counts (trace s)
         ++ filter (fun k => progress_due k total) (seq (S c) (c' - c))
    /\ (exists saved,
          saved_images (trace s') = saved_images (trace s) ++ saved
          /\ Forall (normalized_for target_format) saved).
Proof.
  induction items as [| item rest IH]; intros s r s' Hrun; simpl in Hrun.
  - injection Hrun as <- <-. simpl.
    rewrite Nat.sub_diag. simpl. rewrite !app_nil_r.
    repeat split; try lia. exists []. rewrite app_nil_r. split; constructor.
  - unfold bind in Hrun.
    destruct (process_item w status target_format total item s)
      as [r1 s1] eqn:Hitem.
    apply process_item_spec in Hitem.
    destruct Hitem as (Hu & Ha & Hcase & (saved1 & Hs1 & Hn1)).
    assert (Hrest :
      let c1 := successfully_converted_count (loc s1) in
      let c' := successfully_converted_count (loc s') in
      user s' = user s1
      /\ archive_events (trace s') = archive_events (trace s1)
      /\ (c1 <= c' <= c1 + length rest)%nat
      /\ length (converted_files_paths (loc s'))
         = (length (converted_files_paths (loc s1)) + (c' - c1))%nat
      /\ progress_counts (trace s')
         = progress_counts (trace s1)
           ++ filter (fun k => progress_due k total) (seq (S c1) (c' - c1))
      /\ (exists saved,
            saved_images (trace s') = saved_images (trace s1) ++ saved
            /\ Forall (normalized_for target_format) saved)).
    { destruct r1 as [[] | e].
      - eapply IH, Hrun.
      - injection Hrun as <- <-. simpl.
        rewrite Nat.sub_diag. simpl. rewrite !app_nil_r.
        repeat split; try lia.
        exists []. rewrite app_nil_r. split; constructor. }
    clear Hrun IH. simpl in Hrest.
    destruct Hrest as (Hu' & Ha' & Hc' & Hl' & Hp' & (saved2 & Hs2 & Hn2)).
    simpl. split; [congruence | split; [congruence |]].
    assert (Hsaved : exists saved,
               saved_images (trace s') = saved_images (trace s) ++ saved
               /\ Forall (normalized_for target_format) saved).
    { exists (saved1 ++ saved2). split.
      - rewrite Hs2, Hs1, app_assoc. reflexivity.
      - apply Forall_app. split; assumption. }
    destruct Hcase as [(Hconv & Hcount & Hprog) | (_ & [entry Hconv] & Hcount & Hprog)].
    + rewrite Hconv, Hcount, Hprog in *.
      repeat split; try lia; assumption.
    + rewrite Hconv, Hcount, Hprog in *. rewrite length_app in Hl'. simpl in Hl'.
      repeat split; try lia; try assumption.
      replace (successfully_converted_count (loc s')
               - successfully_converted_count (loc s))%nat
        with (S (successfully_converted_count (loc s')
                 - S (successfully_converted_count (loc s))))%nat by lia.
      rewrite filter_progress_step, app_assoc. exact Hp'.
Qed.

Lemma finish_batch_keeps_saved w status target_format pending :
  keeps (fun s => saved_images (trace s))
        (finish_batch w status target_format pending).
Proof.
  unfold finish_batch, deliver, summarize, clear_session, write_file, log.
  keeps_auto; simpl; trace_simpl; try reflexivity.
  match goal with
  | He : is_archive_event ?e = true |- _ =>
      destruct e; try discriminate He; simpl; apply app_nil_r
  end.
Qed.

(** *** One batch, and the handler around it *)

(** With nothing converted, what follows the loop is the notice that no
    image was converted and, if it went through, the final summary. *)
Lemma finish_batch_nothing_converted w status target_format pending s1 r2 s2 :
  finish_batch w status target_format pending s1 = (r2, s2) ->
  converted_files_paths (loc s1) = [] ->
  trace s2 = trace s1 ++ [EReply MsgNoneConverted]
  \/ exists text,
       final_status_text (loc s1) (length pending) = Some text
       /\ trace s2 = trace s1 ++ [EReply MsgNoneConverted; EEdit status text].
Proof.
  intros Hfin Hnone.
  unfold finish_batch, deliver in Hfin.
  unfold bind at 1 in Hfin. unfold bind at 1 in Hfin.
  unfold get at 1 in Hfin. rewrite Hnone in Hfin.
  unfold bind at 1 in Hfin. unfold tx at 1 in Hfin.
  destruct (tx_ok w (length (trace s1))); cbv beta iota in Hfin.
  2:{ injection Hfin as <- <-. left. reflexivity. }
  unfold ret at 1, bind at 1, summarize in Hfin.
  unfold bind at 1, get at 1 in Hfin. cbv beta iota in Hfin.
  change (loc (set_trace _ s1)) with (loc s1) in Hfin.
  destruct (final_status_text (loc s1) (length pending)) as [text |] eqn:Htext.
  2:{ injection Hfin as <- <-. left. reflexivity. }
  right. exists text. split; [reflexivity |].
  unfold bind at 1, tx at 1 in Hfin.
  destruct (tx_ok w _); cbv beta iota in Hfin.
  2:{ injection Hfin as <- <-. simpl. rewrite <- app_assoc. reflexivity. }
  unfold ret at 1 in Hfin. cbv beta iota in Hfin.
  apply clear_session_keeps_trace in Hfin. rewrite Hfin. simpl.
  rewrite <- app_assoc. reflexivity.
Qed.

Lemma finish_batch_no_archive w status target_format pending s1 r2 s2 :
  finish_batch w status target_format pending s1 = (r2, s2) ->
  converted_files_paths (loc s1) = [] ->
  archive_events (trace s2) = archive_events (trace s1).
Proof.
  intros Hfin Hnone.
  destruct (finish_batch_nothing_converted _ _ _ _ _ _ _ Hfin Hnone)
    as [-> | (text & Htext & ->)].
  - trace_simpl. reflexivity.
  - trace_simpl. unfold final_status_text in Htext.
    destruct (size_reduction_percent _ _); simplify_eq.
    simpl. rewrite ?app_nil_r. reflexivity.
Qed.

Lemma batch_facts_idle target_format n s s' :
  loc s' = fresh_locals ->
  progress_counts (trace s') = progress_counts (trace s) ->
  saved_images (trace s') = saved_images (trace s) ->
  archive_events (trace s') = archive_events (trace s) ->
  batch_facts target_format n s s'.
Proof.
  intros Hl Hp Hs Ha. unfold batch_facts. rewrite Hl, Hp, Hs, Ha. simpl.
  rewrite app_nil_r. repeat split; try lia.
  exists []. rewrite app_nil_r. split; constructor.
Qed.

Lemma batch_facts_notice w target_format n s0 s1 m r1 s2 :
  batch_facts target_format n s0 s1 ->
  (tx w (EReply m) ;; ret tt) s1 = (r1, s2) ->
  (forall c t o o', m <> MsgProgress c t o o') ->
  batch_facts target_format n s0 s2.
Proof.
  intros Hfacts Hsend Hm.
  unfold bind, tx, ret in Hsend.
  assert (Hs2 : s2 = set_trace (fun t => t ++ [EReply m]) s1)
    by (destruct (tx_ok w (length (trace s1))); congruence).
  subst s2. unfold batch_facts in *. simpl. trace_simpl. exact Hfacts.
Qed.

Lemma run_batch_spec w target_format pending s r s' :
  run_batch w target_format pending s = (r, s') ->
  loc s = fresh_locals ->
  batch_facts target_format (length pending) s s'.
Proof.
  intros Hrun Hfresh. unfold run_batch in Hrun.
  unfold bind at 1 in Hrun. unfold tx at 1 in Hrun.
  set (s0 := set_trace _ s) in Hrun.
  destruct (tx_ok w (length (trace s))).
  2:{ injection Hrun as <- <-. apply batch_facts_idle; subst s0; simpl;
        [exact Hfresh | trace_simpl; reflexivity ..]. }
  unfold bind at 1, modify at 1 in Hrun.
  set (s1 := set_loc _ s0) in Hrun.
  unfold bind at 1 in Hrun.
  destruct (convert_all w (length (trace s)) target_format pending s1)
    as [r2 s2] eqn:Hloop.
  apply loop_spec in Hloop. simpl in Hloop.
  destruct Hloop as (_ & Harch & Hc & Hlen & Hprog & (saved & Hsaved & Hnorm)).
  assert (Hend : loc s' = loc s2
                 /\ progress_counts (trace s') = progress_counts (trace s2)
                 /\ saved_images (trace s') = saved_images (trace s2)
                 /\ (converted_files_paths (loc s2) = [] ->
                     archive_events (trace s') = archive_events (trace s2))).
  { destruct r2 as [[] | e].
    - split; [| split; [| split]].
      + eapply (finish_batch_keeps_loc _ _ _ _ _ _ _ Hrun).
      + eapply (finish_batch_keeps_progress _ _ _ _ _ _ _ Hrun).
      + eapply (finish_batch_keeps_saved _ _ _ _ _ _ _ Hrun).
      + eapply finish_batch_no_archive, Hrun.
    - injection Hrun as <- <-. repeat split. }
  destruct Hend as (Hl & Hp & Hs & Ha).
  unfold batch_facts. rewrite Hl, Hp, Hs, Hprog, Hsaved.
  subst s1 s0. simpl in *. revert Harch Ha. trace_simpl. intros Harch Ha.
  rewrite Nat.sub_0_r in *.
  repeat split; try lia.
  - exists saved. split; [reflexivity | exact Hnorm].
  - intros Hnone. rewrite Ha by exact Hnone. exact Harch.
Qed.

Lemma button_callback_spec w data s r s' :
  button_callback w data s = (r, s') ->
  loc s = fresh_locals ->
  exists target_format,
    batch_facts target_format
      (length (default [] (pending_images (user s)))) s s'.
Proof.
  intros Hrun Hfresh. unfold button_callback in Hrun.
  unfold bind at 1 in Hrun. unfold tx at 1 in Hrun.
  set (s0 := set_trace _ s) in Hrun.
  assert (H0 : loc s0 = fresh_locals
               /\ progress_counts (trace s0) = progress_counts (trace s)
               /\ saved_images (trace s0) = saved_images (trace s)
               /\ archive_events (trace s0) = archive_events (trace s)
               /\ user s0 = user s).
  { subst s0. simpl. trace_simpl. auto. }
  clearbody s0. destruct H0 as (Hl0 & Hp0 & Hs0 & Ha0 & Hu0).
  rewrite <- Hu0.
  enough (Hgoal : exists target_format,
             batch_facts target_format
               (length (default [] (pending_images (user s0)))) s0 s').
  { destruct Hgoal as [fmt Hfacts]. exists fmt.
    unfold batch_facts in *. rewrite <- Hp0, <- Hs0, <- Ha0. exact Hfacts. }
  clear Hp0 Hs0 Ha0 Hu0 Hfresh.
  assert (Hidle : forall fmt n, batch_facts fmt n s0 s0)
    by (intros; apply batch_facts_idle; auto).
  destruct (tx_ok w (length (trace s))).
  2:{ injection Hrun as <- <-. exists "". apply Hidle. }
  unfold try_except in Hrun.
  unfold bind at 1, parse_target_format in Hrun.
  destruct (split_on "_" data) as [| first [| piece others]].
  1,2: exists "";
       eapply batch_facts_notice; [apply Hidle | exact Hrun | discriminate].
  unfold ret at 1, bind at 1, get at 1 in Hrun.
  exists (upper (str_upper w) piece).
  destruct (pending_images (user s0)) as [[| item rest] |] eqn:Hpending.
  1,3: destruct ((tx w (EReply MsgNoImagesFound) ;; ret tt) s0)
         as [[[] | e] s1] eqn:Hsend;
       [ injection Hrun as <- <-
       | eapply batch_facts_notice; [| exact Hrun | discriminate] ];
       (eapply batch_facts_notice;
        [apply Hidle | exact Hsend | discriminate]).
  destruct (run_batch w (upper (str_upper w) piece) (item :: rest) s0) as [r1 s1] eqn:Hbatch.
  apply run_batch_spec in Hbatch; [| exact Hl0].
  destruct r1 as [[] | e].
  - injection Hrun as <- <-. exact Hbatch.
  - eapply batch_facts_notice; [exact Hbatch | exact Hrun | discriminate].
Qed.

(** *** Claims about a batch *)

(** C1, at the failing input: one staged picture in mode LA (greyscale with
    alpha) and the JPEG button.  The test before the encoder names the
    modes RGBA and P only, so the rule of the specification fails, and the
    picture reaches [img.save] as it was opened, in mode LA, with its
    alpha channel; Pillow's JPEG encoder refuses that mode, the item is
    reported as failed and nothing is converted.  The same picture in
    mode RGBA is flattened to RGB, encoded, and sent. *)
Theorem C1_jpeg_alpha_not_flattened :
  let run mode :=
    snd (button_callback Scenarios.pillow_world "convert_jpeg"
           (Scenarios.one_picture mode)) in
  ~ jpeg_flattens_alpha_and_palette
  /\ mode_has_alpha "LA" = true
  /\ saved_images (trace (run "LA"))
     = [("JPEG", Scenarios.picture "LA" 8192)]
  /\ (exists summary,
        trace (run "LA")
        = [EAnswer; EReply (MsgPreparing 1 "JPEG");
           ESave "/tmp/tmp0.jpg" "JPEG" (Scenarios.picture "LA" 8192);
           EReply (MsgItemError "g.png"); EReply MsgNoneConverted;
           EEdit 1 summary])
  /\ converted_files_paths (loc (run "LA")) = []
  /\ saved_images (trace (run "RGBA"))
     = [("JPEG", convert "RGB" (Scenarios.picture "RGBA" 8192))]
  /\ sent_archives (trace (run "RGBA")) = [["g.jpg"]].
Proof.
  split.
  { intros H. specialize (H (Scenarios.picture "LA" 1)).
    vm_compute in H. specialize (H eq_refl). discriminate H. }
  vm_compute. repeat split. eexists. reflexivity.
Qed.

(** C9: a run of the handler collects at most as many results as there
    are staged images in the pending list. *)
Theorem C9_results_at_most_pending (w : world) (data : string) (s : state)
    (pending : list (string * string)) :
  loc s = fresh_locals ->
  pending_images (user s) = Some pending ->
  (length (converted_files_paths (loc (snd (button_callback w data s))))
   <= length pending)%nat.
Proof.
  intros Hfresh Hpending.
  destruct (button_callback w data s) as [r s'] eqn:Hrun.
  destruct (button_callback_spec _ _ _ _ _ Hrun Hfresh) as [fmt Hfacts].
  rewrite Hpending in Hfacts. apply Hfacts.
Qed.

Lemma C9_results_at_most_pending_witness :
  (length (converted_files_paths
            (loc (snd (button_callback Scenarios.demo_world "convert_webp"
                         (Scenarios.session Scenarios.broken_first)))))
   <= 3)%nat.
Proof.
  apply (C9_results_at_most_pending Scenarios.demo_world "convert_webp"
           (Scenarios.session Scenarios.broken_first)
           Scenarios.broken_first);
    reflexivity.
Defined.

Lemma progress_due_iff count total :
  progress_due count total = true
  <-> (count mod 5 = 0 \/ count = total)%nat.
Proof.
  unfold progress_due. rewrite orb_true_iff, !Nat.eqb_eq. reflexivity.
Qed.

(** C6, counterexample: three staged images, the first of which does not
    decode.  The run goes to its end (the final summary shows 2/3) and the
    last item is converted, yet no progress report is sent. *)
Lemma C6_final_item_without_report :
  let s' := snd (button_callback Scenarios.demo_world "convert_webp"
                   (Scenarios.session Scenarios.broken_first)) in
  progress_counts (trace s') = []
  /\ successfully_converted_count (loc s') = 2%nat
  /\ exists percent,
       last (trace s') = Some (EEdit 1 (MsgFinal 2 3 92160 35840 percent)).
Proof.
  vm_compute. split; [reflexivity | split; [reflexivity |]].
  eexists. reflexivity.
Qed.

(** C6, amended: a progress report is sent only right after a successful
    conversion, and exactly when the running count of successes is a
    multiple of 5 or equals the length of the batch (which it can only
    after the last item, when every item was converted); an item that is
    skipped or fails sends none.  The report shows the count of successes
    and the running byte totals. *)
Theorem C6_progress_reports (w : world) (data : string) (s : state)
    (pending : list (string * string)) :
  loc s = fresh_locals ->
  pending_images (user s) = Some pending ->
  let s' := snd (button_callback w data s) in
  let successes := successfully_converted_count (loc s') in
  (successes <= length pending)%nat
  /\ progress_counts (trace s')
     = progress_counts (trace s)
       ++ filter (fun k => progress_due k (length pending)) (seq 1 successes)
  /\ (forall k, progress_due k (length pending) = true
                <-> (k mod 5 = 0 \/ k = length pending)%nat)
  /\ (forall status target_format total item s0,
        let s1 := snd (process_item w status target_format total item s0) in
        exists new,
          trace s1 = trace s0 ++ new
          /\ forall h m,
               EEdit h m ∈ new ->
               h = status
               /\ m = MsgProgress (successfully_converted_count (loc s1))
                        total (total_original_size (loc s1))
                        (total_converted_size (loc s1))).
Proof.
  intros Hfresh Hpending. simpl.
  destruct (button_callback w data s) as [r s'] eqn:Hrun.
  destruct (button_callback_spec _ _ _ _ _ Hrun Hfresh) as [fmt Hfacts].
  rewrite Hpending in Hfacts. simpl in *.
  destruct Hfacts as (_ & Hc & Hp & _ & _).
  split; [exact Hc | split; [exact Hp | split]].
  - intros k. apply progress_due_iff.
  - intros status target_format total item s0.
    destruct (process_item w status target_format total item s0)
      as [r1 s1] eqn:Hitem.
    apply (process_item_report _ _ _ _ _ _ _ _ Hitem).
Qed.

Lemma C6_progress_reports_witness :
  let s' := snd (button_callback Scenarios.demo_world "convert_webp"
                   (Scenarios.session [("/in/a", "a.png")])) in
  progress_counts (trace s')
  = filter (fun k => progress_due k 1)
      (seq 1 (successfully_converted_count (loc s'))).
Proof.
  apply (proj1 (proj2
    (C6_progress_reports Scenarios.demo_world "convert_webp"
       (Scenarios.session [("/in/a", "a.png")]) [("/in/a", "a.png")]
       eq_refl eq_refl))).
Defined.

(** *** A batch without a result *)







(** *** The session after a batch *)

Lemma bind_ok {A C} (m : M A) (k : A -> M C) s c s' :
  bind m k s = (Ok c, s') ->
  exists a s1, m s = (Ok a, s1) /\ k a s1 = (Ok c, s').
Proof.
  unfold bind. destruct (m s) as [[a | e] s1]; [eauto | discriminate].
Qed.

(** A batch that runs to its end (whether it converted everything, a part
    or nothing) leaves the session clear. *)
Lemma run_batch_ok_clears w target_format pending s s' :
  run_batch w target_format pending s = (Ok tt, s') -> cleared (user s').
Proof.
  intros Hrun. unfold run_batch in Hrun.
  apply bind_ok in Hrun as (status & s1 & _ & Hrun).
  apply bind_ok in Hrun as (_ & s2 & _ & Hrun).
  apply bind_ok in Hrun as (_ & s3 & _ & Hrun).
  unfold finish_batch in Hrun.
  apply bind_ok in Hrun as (_ & s4 & _ & Hrun).
  apply bind_ok in Hrun as (_ & s5 & _ & Hrun).
  destruct (clear_session_clears pending s5) as (s6 & Hclear & Hcleared).
  rewrite Hclear in Hrun. injection Hrun as <-. exact Hcleared.
Qed.

(** C3, at the failing input: a valid image followed by a file that does
    not decode.  The handler of the failed item removes the converted file
    of the item before it, the archive cannot be written, the outer
    handler reports a critical error, and the pending list and the status
    handle are as they were before the run: the session is not cleared. *)
Theorem C3_critical_error_keeps_session :
  let s := Scenarios.session Scenarios.broken_second in
  let run := button_callback Scenarios.demo_world "convert_webp" s in
  fst run = Ok tt
  /\ last (trace (snd run)) = Some (EReply MsgCritical)
  /\ sent_archives (trace (snd run)) = []
  /\ pending_images (user (snd run)) = Some Scenarios.broken_second
  /\ message_to_edit (user (snd run)) = Some 0%nat
  /\ ~ cleared (user (snd run)).
Proof.
  vm_compute. repeat split; intros [H _]; discriminate H.
Qed.

(** *** The summary of a partly failed batch *)

(** C5, at the failing input: a 10 KB file that does not decode, then two
    images of 50 KB and 30 KB that convert to 20 KB and 15 KB.  There are
    two results, the archive holds [a.webp] and [b.webp], the summary
    shows 2/3; but the original total is 90 KB, the 80 KB of the two
    successes and the 10 KB of the file that failed, and the percentage
    is computed from it. *)
Theorem C5_failed_bytes_in_summary :
  let s' := snd (button_callback Scenarios.demo_world "convert_webp"
                   (Scenarios.session Scenarios.broken_first)) in
  map snd (converted_files_paths (loc s')) = ["a.webp"; "b.webp"]
  /\ sent_archives (trace s') = [["a.webp"; "b.webp"]]
  /\ total_original_size (loc s') = 51200 + 30720 + 10240
  /\ total_converted_size (loc s') = 20480 + 15360
  /\ exists percent,
       last (trace s') = Some (EEdit 1 (MsgFinal 2 3 92160 35840 percent))
       /\ (percent == 5500 # 90)%Q
       /\ ~ (percent == 5625 # 100)%Q.
Proof.
  vm_compute. repeat split.
  eexists. split; [reflexivity |]. split.
  - reflexivity.
  - intros H. discriminate H.
Qed.

(** *** Staging the content of an archive *)


(** One turn of the staging loop: an entry that is not accepted is passed
    over; an accepted one is staged under a fresh temporary name, unless
    that name would be too long, and then the loop ends in [OSError]. *)
Lemma stage_entry_run w entry s pending :
  pending_images (user s) = Some pending ->
  exists r s',
    stage_entry w entry s = (r, s')
    /\ trace s' = trace s
    /\ (accepted entry = false -> r = Ok tt /\ s' = s)
    /\ (accepted entry = true -> stageable entry = false ->
        r = Raise OSError /\ s' = s)
    /\ (accepted entry = true -> stageable entry = true ->
        r = Ok tt
        /\ exists f,
             snd entry = Regular f
             /\ pending_images (user s')
                = Some (pending
                        ++ [(tmp_name w (temps s) ("_" +:+ fst entry),
                             fst entry)])
             /\ fs s' = <[tmp_name w (temps s) ("_" +:+ fst entry) := f]> (fs s)
             /\ temps s' = S (temps s)).
Proof.
  intros Hpending. unfold stage_entry, stageable, accepted.
  destruct s as [disk st [p m] l t n k]. simpl in Hpending. subst p.
  destruct entry as [name [f | inner]]; simpl.
  - destruct (has_image_extension name); simpl.
    + unfold named_temporary_file.
      destruct (fits_temporary_name ("_" +:+ name)) eqn:Hfits.
      * unfold read_node, write_file, append_pending, bind, get, modify, ret.
        simpl. eexists _, _. split; [reflexivity |].
        split; [reflexivity |]. split; [discriminate |].
        split; [discriminate |]. intros _ _. split; [reflexivity |].
        exists f. simpl. rewrite insert_insert_eq. auto.
      * unfold bind, raise. eexists _, _. split; [reflexivity |].
        split; [reflexivity |]. split; [discriminate |].
        split; [auto | discriminate].
    + eexists _, _. split; [reflexivity |]. split; [reflexivity |].
      split; [auto |]. split; discriminate.
  - eexists _, _. split; [reflexivity |]. split; [reflexivity |].
    split; [auto |]. split; discriminate.
Qed.

(** The staging loop: what it adds to the session are, in listing order,
    the accepted entries up to the first one whose temporary file cannot
    be created; when there is none such, it ends well and they are all
    the accepted entries. *)
Lemma stage_extracted_spec w entries :
  forall s pending,
    pending_images (user s) = Some pending ->
    exists r s' staged,
      stage_extracted w entries s = (r, s')
      /\ pending_images (user s') = Some (pending ++ staged)
      /\ trace s' = trace s
      /\ (exists rest,
            map fst (filter (fun e => accepted e) entries)
            = map snd staged ++ rest)
      /\ (Forall (fun e => stageable e = true) entries ->
          r = Ok tt
          /\ map snd staged = map fst (filter (fun e => accepted e) entries)).
Proof.
  unfold stage_extracted.
  induction entries as [| entry rest IH]; intros s pending Hpending.
  - exists (Ok tt), s, []. rewrite app_nil_r. simpl.
    repeat split; try assumption. exists []. reflexivity.
  - destruct (stage_entry_run w entry s pending Hpending)
      as (r1 & s1 & Hentry & Htrace1 & Hskip & Hstop & Hstage).
    simpl. unfold bind. rewrite Hentry.
    destruct (accepted entry) eqn:Hacc.
    + rewrite filter_cons_True by (rewrite Hacc; exact I).
      destruct (stageable entry) eqn:Hfit.
      * destruct (Hstage eq_refl eq_refl) as (-> & f & _ & Hpending1 & _).
        destruct (IH s1 _ Hpending1)
          as (r & s' & staged & Hrest & Hpending' & Htrace' & [more Hmore]
              & Hall).
        eexists r, s', (_ :: staged). split; [exact Hrest |].
        rewrite Hpending', <- app_assoc.
        split; [reflexivity |]. split; [congruence |]. split.
        -- exists more. simpl. rewrite Hmore. reflexivity.
        -- intros Hfits. apply Forall_cons in Hfits as [_ Hfits].
           destruct (Hall Hfits) as [-> Hnames].
           split; [reflexivity |]. simpl. rewrite Hnames. reflexivity.
      * destruct (Hstop eq_refl eq_refl) as [-> ->].
        exists (Raise OSError), s, []. rewrite app_nil_r.
        split; [reflexivity |]. split; [exact Hpending |].
        split; [reflexivity |]. split.
        -- eexists. reflexivity.
        -- intros Hfits. apply Forall_cons in Hfits as [Hfits _].
           congruence.
    + rewrite filter_cons_False by (rewrite Hacc; intros []).
      destruct (Hskip eq_refl) as [-> ->].
      destruct (IH s _ Hpending)
        as (r & s' & staged & Hrest & Hpending' & Htrace' & Hprefix & Hall).
      exists r, s', staged. split; [exact Hrest |].
      split; [exact Hpending' |]. split; [exact Htrace' |].
      split; [exact Hprefix |].
      intros Hfits. apply Forall_cons in Hfits as [_ Hfits]. auto.
Qed.


Lemma init_user_data_pending s :
  pending_images (user (set_user (fun u =>
    match pending_images u with
    | Some _ => u
    | None => {| pending_images := Some []; message_to_edit := None |}
    end) s))
  = Some (default [] (pending_images (user s))).
Proof.
  simpl. destruct (pending_images (user s)) eqn:Hp; simpl;
    [exact Hp | reflexivity].
Qed.

(** The temporary file of the download can always be created. *)
Lemma zip_suffix_fits : fits_temporary_name ".zip" = true.
Proof. reflexivity. Qed.




(** *** Directories of an archive *)

Lemma bind_ext {A C} (m : M A) (k k' : A -> M C) s :
  (forall a s1, k a s1 = k' a s1) -> bind m k s = bind m k' s.
Proof.
  intros Hk. unfold bind. destruct (m s) as [[a | e] s1]; [apply Hk | reflexivity].
Qed.

Lemma bind_ret_l {A C} (a : A) (k : A -> M C) s : bind (ret a) k s = k a s.
Proof. reflexivity. Qed.

Lemma try_except_ext {A} (m m' : M A) (h : exn -> M A) s :
  m s = m' s -> try_except m h s = try_except m' h s.
Proof. intros Hm. unfold try_except. rewrite Hm. reflexivity. Qed.

Lemma stage_entry_shallow w entry :
  stage_entry w (shallow entry) = stage_entry w entry.
Proof. destruct entry as [name [f | inner]]; reflexivity. Qed.

Lemma stage_extracted_shallow w entries :
  stage_extracted w (map shallow entries) = stage_extracted w entries.
Proof.
  unfold stage_extracted.
  induction entries as [| entry rest IH]; simpl; [reflexivity |].
  rewrite stage_entry_shallow, IH. reflexivity.
Qed.

Lemma accepted_top_level (entries : list (string * node)) name :
  name ∈ map fst (filter (fun e => accepted e) entries) ->
  exists f, (name, Regular f) ∈ entries.
Proof.
  intros Hin. apply list_elem_of_fmap in Hin as ([name' n] & -> & Hin).
  apply list_elem_of_filter in Hin as [Hacc Hin].
  unfold accepted in Hacc. simpl in *.
  destruct n as [f | inner]; [eauto | destruct Hacc].
Qed.

(** C10: staging is not recursive.  Whatever the directories of the
    extracted archive hold makes no difference to what the handler does,
    and every image that is staged, whether the staging loop runs to its
    end or stops at a name that is too long, bears the name of a regular
    file at the top level of the extraction directory. *)
Theorem C10_staging_is_not_recursive (w : world) (doc : document)
    (s : state) :
  handle_document w doc s = handle_document w (shallow_document doc) s
  /\ (forall entries pending,
        pending_images (user s) = Some pending ->
        exists staged,
          pending_images (user (snd (stage_extracted w entries s)))
          = Some (pending ++ staged)
          /\ forall item, item ∈ staged ->
                          exists f, (snd item, Regular f) ∈ entries).
Proof.
  split.
  - unfold handle_document. apply try_except_ext. simpl.
    destruct (bool_decide (mime_type doc = "application/zip"));
      [| reflexivity].
    do 5 (apply bind_ext; intros ? ?).
    destruct (doc_extracted doc) as [entries |]; simpl; [| reflexivity].
    rewrite !bind_ret_l, stage_extracted_shallow. reflexivity.
  - intros entries pending Hpending.
    destruct (stage_extracted_spec w entries s pending Hpending)
      as (r & s' & staged & Hrun & Hpending' & _ & [rest Hnames] & _).
    exists staged. rewrite Hrun. split; [exact Hpending' |].
    intros item Hitem. apply (accepted_top_level entries).
    rewrite Hnames. apply elem_of_app. left.
    apply list_elem_of_fmap. eauto.
Qed.

Lemma C10_staging_is_not_recursive_witness :
  exists staged,
    pending_images
      (user (snd (stage_extracted Scenarios.demo_world Scenarios.nested
                    (Scenarios.session []))))
    = Some ([] ++ staged)
    /\ forall item, item ∈ staged ->
                    exists f, (snd item, Regular f) ∈ Scenarios.nested.
Proof.
  apply (proj2 (C10_staging_is_not_recursive Scenarios.demo_world
                  (Scenarios.zip_of Scenarios.nested)
                  (Scenarios.session []))
           Scenarios.nested []).
  reflexivity.
Defined.

(** *** File names *)

Lemma substring_whole s : String.substring 0 (String.length s) s = s.
Proof. induction s as [| c s IH]; simpl; [reflexivity | rewrite IH; reflexivity]. Qed.

Lemma string_app_cons c a b : String c a +:+ b = String c (a +:+ b).
Proof. reflexivity. Qed.

Lemma string_app_empty_r p : p +:+ "" = p.
Proof.
  induction p as [| c p IH]; [reflexivity |].
  rewrite string_app_cons, IH. reflexivity.
Qed.

Lemma string_length_app a b :
  String.length (a +:+ b) = (String.length a + String.length b)%nat.
Proof.
  induction a as [| c a IH]; [reflexivity |].
  rewrite string_app_cons. simpl. rewrite IH. reflexivity.
Qed.

Lemma substring_split n : forall p,
  (n <= String.length p)%nat ->
  String.substring 0 n p +:+ String.substring n (String.length p - n) p = p.
Proof.
  induction n as [| n IH]; intros p Hn.
  - rewrite Nat.sub_0_r, substring_whole. destruct p; reflexivity.
  - destruct p as [| c p]; simpl in Hn; [lia |].
    simpl. rewrite string_app_cons. f_equal. apply IH. lia.
Qed.

Lemma rfind_from_get c s : forall i j,
  rfind_from c s i = Some j ->
  (i <= j)%nat /\ (j - i < String.length s)%nat
  /\ String.get (j - i) s = Some c.
Proof.
  induction s as [| d s IH]; intros i j Hfind; simpl in Hfind; [discriminate |].
  destruct (rfind_from c s (S i)) as [k |] eqn:Hrest.
  - injection Hfind as <-. destruct (IH _ _ Hrest) as (Hle & Hlt & Hget).
    replace (k - i)%nat with (S (k - S i)) by lia. simpl.
    repeat split; try lia. exact Hget.
  - destruct (bool_decide (d = c)) eqn:Hd; [| discriminate].
    injection Hfind as <-. apply bool_decide_eq_true in Hd as ->.
    rewrite Nat.sub_diag. simpl. repeat split; lia.
Qed.

Lemma substring_from_get n : forall p c,
  String.get n p = Some c ->
  exists rest, String.substring n (String.length p - n) p = String c rest.
Proof.
  induction n as [| n IH]; intros p c Hget; destruct p as [| d p];
    simpl in Hget; try discriminate.
  - injection Hget as ->. simpl. eauto.
  - simpl. apply IH. exact Hget.
Qed.

(** [os.path.splitext] loses nothing: root and extension put together give
    the name back, and the extension is empty or begins with a dot. *)
Lemma splitext_joins_back (p : string) :
  fst (splitext p) +:+ snd (splitext p) = p
  /\ (snd (splitext p) = ""
      \/ exists rest, snd (splitext p) = String "."%char rest).
Proof.
  unfold splitext.
  destruct (rfind "." p) as [dotIndex |] eqn:Hdot; simpl.
  2:{ split; [apply string_app_empty_r | left; reflexivity]. }
  destruct (_ && _); simpl.
  2:{ split; [apply string_app_empty_r | left; reflexivity]. }
  apply rfind_from_get in Hdot as (_ & Hlt & Hget).
  rewrite Nat.sub_0_r in *.
  split.
  - apply substring_split. lia.
  - right. eapply substring_from_get, Hget.
Qed.

Lemma lower_ascii_idem c : lower_ascii (lower_ascii c) = lower_ascii c.
Proof. destruct c as [[] [] [] [] [] [] [] []]; reflexivity. Qed.

Lemma lower_upper_ascii c : lower_ascii (upper_ascii c) = lower_ascii c.
Proof. destruct c as [[] [] [] [] [] [] [] []]; reflexivity. Qed.

Lemma lower_idem s : lower (lower s) = lower s.
Proof.
  unfold lower. induction s as [| c s IH]; simpl;
    [reflexivity | rewrite lower_ascii_idem, IH; reflexivity].
Qed.

Lemma lower_upper unicode_upper s :
  is_ascii s = true -> lower (upper unicode_upper s) = lower s.
Proof.
  intros Hascii. unfold upper. rewrite Hascii. clear Hascii.
  unfold lower. induction s as [| c s IH]; simpl;
    [reflexivity | rewrite lower_upper_ascii, IH; reflexivity].
Qed.

(** X20: the test on the extension does not look at the case of the
    letters A to Z: a name in ASCII and its upper-case form are accepted
    or passed over together, as files and as entries of an archive, and
    so are any name and the name with its ASCII letters in lower case. *)
Theorem image_extension_ignores_case (w : world) (filename : string)
    (n : node) :
  has_image_extension (lower filename) = has_image_extension filename
  /\ (is_ascii filename = true ->
      has_image_extension (upper (str_upper w) filename)
      = has_image_extension filename
      /\ accepted (upper (str_upper w) filename, n) = accepted (filename, n)).
Proof.
  unfold accepted, has_image_extension. simpl.
  rewrite lower_idem. split; [reflexivity |].
  intros Hascii. rewrite lower_upper by exact Hascii. auto.
Qed.

Lemma image_extension_ignores_case_witness :
  has_image_extension "PHOTO.JPG" = has_image_extension "photo.jpg"
  /\ accepted ("PHOTO.JPG", Directory []) = accepted ("photo.jpg", Directory []).
Proof.
  apply (proj2 (image_extension_ignores_case Scenarios.demo_world
                  "photo.jpg" (Directory [])) eq_refl).
Defined.

(** *** Statistics: sizes, and the view of the administrator *)

Lemma sum_original_bump_period o c k d :
  Stats.sum_with Stats.size_original (Stats.bump_period o c k d)
  = Stats.sum_with Stats.size_original d + o.
Proof.
  unfold Stats.bump_period. rewrite sum_with_insert.
  destruct (d !! k); simpl; lia.
Qed.

Lemma sum_converted_bump_period o c k d :
  Stats.sum_with Stats.size_converted (Stats.bump_period o c k d)
  = Stats.sum_with Stats.size_converted d + c.
Proof.
  unfold Stats.bump_period. rewrite sum_with_insert.
  destruct (d !! k); simpl; lia.
Qed.

Lemma update_keeps_sizes s o c fmt today month :
  Admin.sizes_consistent s ->
  Admin.sizes_consistent
    (Stats.update_conversion_stats o c fmt today month s).
Proof.
  intros (Hi & Ho & Ho' & Hc & Hc').
  unfold Admin.sizes_consistent. simpl.
  rewrite !sum_original_bump_period, !sum_converted_bump_period.
  pose proof (sum_images_bump_period o c month (Stats.monthly_stats s))
    as Hm.
  unfold Stats.sum_images in Hm. rewrite Hm.
  repeat split; lia.
Qed.

Lemma update_keeps_consistent s o c fmt today month :
  Stats.consistent s ->
  Stats.consistent (Stats.update_conversion_stats o c fmt today month s).
Proof.
  intros [Hf Hd]. split; simpl.
  - rewrite sum_values_bump_format. lia.
  - rewrite sum_images_bump_period. lia.
Qed.

(** X1: the size totals stay in step.  With no statistics file the byte
    totals and the image total are the sums of the daily and of the
    monthly entries (all zero), and [update_conversion_stats] keeps it
    so, whatever the sizes and the dates. *)
Theorem sizes_stay_consistent :
  Admin.sizes_consistent Stats.initial
  /\ forall (s : Stats.t) (original_size converted_size : Z)
            (target_format today month : string),
       Admin.sizes_consistent s ->
       Admin.sizes_consistent
         (Stats.update_conversion_stats original_size converted_size
            target_format today month s).
Proof.
  split.
  - repeat split; reflexivity.
  - intros. apply update_keeps_sizes. assumption.
Qed.

Lemma sizes_stay_consistent_witness :
  Admin.sizes_consistent Scenarios2.busy_stats.
Proof.
  unfold Scenarios2.busy_stats.
  apply (proj2 sizes_stay_consistent).
  apply (proj2 sizes_stay_consistent).
  apply (proj1 sizes_stay_consistent).
Defined.

(** X2: who sees the statistics.  The reply is the refusal exactly when no
    administrator is configured, or the configured identity is empty, or
    it is not the decimal form of the identity of the user; and a refusal
    does not depend on the statistics, the arguments or the date. *)
Theorem stats_only_for_admin (ADMIN_ID : option string) (user_id : Z)
    (args : list string) (today month : string) (st : Stats.t) :
  (Admin.stats_command ADMIN_ID user_id args today month st
   = Admin.StatsDenied
   <-> ADMIN_ID = None \/ ADMIN_ID = Some ""
       \/ ADMIN_ID <> Some (pretty user_id)).
Proof.
  unfold Admin.stats_command, Admin.not_admin.
  destruct ADMIN_ID as [admin |].
  2:{ split; [auto | reflexivity]. }
  destruct (bool_decide (admin = "")) eqn:Hempty; simpl.
  { apply bool_decide_eq_true in Hempty as ->. split; [auto | reflexivity]. }
  apply bool_decide_eq_false in Hempty.
  destruct (bool_decide (pretty user_id = admin)) eqn:Hid; simpl.
  - apply bool_decide_eq_true in Hid as <-.
    split.
    + unfold Admin.period_line. repeat case_match; discriminate.
    + intros [H | [H | H]]; congruence.
  - apply bool_decide_eq_false in Hid.
    split; [| reflexivity]. intros _. right. right. congruence.
Qed.

(** X3: what was recorded is what is shown.  After a conversion is
    recorded on a day, the administrator's view of that day shows one
    image more and the two sizes added to what the day had before (or to
    zero, when the day had no entry); a day without entry shows zeros. *)
Theorem today_view_after_record (admin : string) (user_id : Z)
    (rest : list string) (original_size converted_size : Z)
    (target_format today month anymonth : string) (st : Stats.t) :
  admin <> "" ->
  pretty user_id = admin ->
  let before := default Stats.zero_period (Stats.daily_stats st !! today) in
  Admin.stats_command (Some admin) user_id ("today" :: rest) today anymonth
    (Stats.update_conversion_stats original_size converted_size
       target_format today month st)
  = Admin.StatsToday (Stats.images before + 1)
      (Admin.format_size (Stats.size_original before + original_size))
      (Admin.format_size (Stats.size_converted before + converted_size))
      (Admin.format_size (Stats.size_original before + original_size
                          - (Stats.size_converted before + converted_size)))
  /\ (Stats.daily_stats st !! today = None ->
      Admin.stats_command (Some admin) user_id ("today" :: rest) today
        anymonth st
      = Admin.StatsToday 0 (0%Q, "B") (0%Q, "B") (0%Q, "B")).
Proof.
  intros Hne Hid. simpl.
  unfold Admin.stats_command, Admin.not_admin.
  rewrite (bool_decide_eq_false_2 _ Hne), (bool_decide_eq_true_2 _ Hid).
  simpl. split.
  - unfold Stats.bump_period. rewrite lookup_insert_eq. reflexivity.
  - intros ->. reflexivity.
Qed.

Lemma today_view_after_record_witness :
  Admin.stats_command (Some "42") 42 ["today"] "2024-05-01" "2024-05"
    Scenarios2.busy_stats
  = Admin.StatsToday 1 (Admin.format_size 51200) (Admin.format_size 20480)
      (Admin.format_size (51200 - 20480)).
Proof.
  apply (today_view_after_record "42" 42 [] 51200 20480 "WEBP"
           "2024-05-01" "2024-05" "2024-05").
  - discriminate.
  - reflexivity.
Defined.

Lemma format_size_step (a : Z) (p : positive) (units : list string)
    (unit : string) :
  Admin.format_size_from (unit :: units) (a # p)
  = if (1024 * Z.pos p <=? a) then Admin.format_size_from units (a # p * 1024)
    else (a # p, unit).
Proof.
  simpl. unfold Qle_bool. simpl Qnum. simpl Qden.
  replace (a * 1) with a by lia.
  destruct (1024 * Z.pos p <=? a); simpl; [| reflexivity].
  unfold Qdiv, Qmult, Qinv. simpl.
  replace (a * 1) with a by lia. reflexivity.
Qed.

(** X4: the unit of a size.  Below 1024 (negative sizes included) the
    number is shown as it is, in bytes; from there each factor of 1024
    moves to the next unit, up to GB; from 1024 GB on the number is
    divided once more and still labelled GB, so that a terabyte reads as
    one GB. *)
Theorem format_size_units (n : Z) :
  (n < 1024 -> Admin.format_size n = (inject_Z n, "B"))
  /\ (1024 <= n < 1024 ^ 2 -> Admin.format_size n = (n # 1024, "KB"))
  /\ (1024 ^ 2 <= n < 1024 ^ 3 ->
      Admin.format_size n = (n # 1024 ^ 2, "MB"))
  /\ (1024 ^ 3 <= n < 1024 ^ 4 ->
      Admin.format_size n = (n # 1024 ^ 3, "GB"))
  /\ (1024 ^ 4 <= n -> Admin.format_size n = (n # 1024 ^ 4, "GB")).
Proof.
  unfold Admin.format_size, inject_Z.
  repeat split; intros Hn; rewrite !format_size_step;
    repeat match goal with
      | |- context [?a <=? ?b] =>
          destruct (Z.leb_spec a b); try lia
      end; try reflexivity.
Qed.

Lemma format_size_units_witness :
  Admin.format_size (1024 ^ 4) = (1024 ^ 4 # 1024 ^ 4, "GB")
  /\ Admin.format_size (-5000) = (inject_Z (-5000), "B").
Proof.
  split.
  - apply (proj2 (proj2 (proj2 (proj2 (format_size_units (1024 ^ 4)))))).
    lia.
  - apply (proj1 (format_size_units (-5000))). lia.
Defined.

(** *** The keyboard *)

Lemma keyboard_loop_spec n : forall names i keyboard row,
  (i + length names = n)%nat ->
  (length row < 2)%nat ->
  (names = [] -> row = []) ->
  Forall (fun r => (1 <= length r <= 2)%nat) keyboard ->
  let rows := Keyboard.keyboard_loop n i names keyboard row in
  concat rows = concat keyboard ++ row ++ map Keyboard.format_button names
  /\ Forall (fun r => (1 <= length r <= 2)%nat) rows
  /\ length rows
     = (length keyboard + (length row + length names + 1) / 2)%nat.
Proof.
  induction names as [| name rest IH];
    intros i keyboard row Hi Hrow Hlast Hkb; simpl.
  - rewrite (Hlast eq_refl) in *. simpl. rewrite !app_nil_r.
    repeat split; [exact Hkb | ].
    repeat match goal with
           | |- context [(Nat.divmod ?x 1 0 1).1] =>
               change (Nat.divmod x 1 0 1).1 with (x / 2)%nat
           end; lia.
  - simpl in Hi. rewrite length_app. simpl.
    destruct ((length row + 1 =? 2)%nat || (i =? n - 1)%nat) eqn:Hfull.
    + edestruct (IH (S i) (keyboard ++ [row ++ [Keyboard.format_button name]])
                   []) as (Hc & Hf & Hl).
      * lia.
      * simpl. lia.
      * reflexivity.
      * apply Forall_app. split; [exact Hkb |].
        constructor; [| constructor]. rewrite length_app. simpl. lia.
      * rewrite Hc, Hl, concat_app, length_app. simpl.
        rewrite app_nil_r, <- !app_assoc. simpl.
        split; [reflexivity | split; [exact Hf |]].
        apply orb_true_iff in Hfull as [Hfull | Hfull];
          apply Nat.eqb_eq in Hfull.
        -- repeat match goal with
           | |- context [(Nat.divmod ?x 1 0 1).1] =>
               change (Nat.divmod x 1 0 1).1 with (x / 2)%nat
           end.
           replace (length row + S (length rest) + 1)%nat
             with (1 * 2 + (length rest + 1))%nat by lia.
           rewrite Nat.div_add_l by lia. lia.
        -- assert (length rest = 0%nat) as -> by lia.
           destruct row as [| b [| b' row]]; simpl in *; try lia;
             reflexivity.
    + apply orb_false_iff in Hfull as [Hfull Hfull'].
      apply Nat.eqb_neq in Hfull, Hfull'.
      edestruct (IH (S i) keyboard (row ++ [Keyboard.format_button name]))
        as (Hc & Hf & Hl).
      * lia.
      * rewrite length_app. simpl. lia.
      * intros ->. simpl in *. lia.
      * exact Hkb.
      * rewrite Hc, Hl, length_app. simpl. rewrite <- !app_assoc. simpl.
        repeat split; [exact Hf |].
        repeat match goal with
           | |- context [(Nat.divmod ?x 1 0 1).1] =>
               change (Nat.divmod x 1 0 1).1 with (x / 2)%nat
           end.
        replace (length row + 1 + length rest + 1)%nat
          with (length row + S (length rest) + 1)%nat by lia.
        reflexivity.
Qed.

Lemma keyboard_rows_concat names :
  concat (Keyboard.keyboard_rows names) = map Keyboard.format_button names.
Proof.
  unfold Keyboard.keyboard_rows.
  destruct (keyboard_loop_spec (length names) names 0 [] [])
    as (Hc & _); try reflexivity; try (simpl; lia); [constructor |].
  exact Hc.
Qed.

(** X5: the keyboard of any table of formats has one button per format, in
    the order of the table, in rows of one or two buttons, and in as few
    rows as that allows: half the number of formats, rounded up. *)
Theorem keyboard_layout (names : list string) :
  let rows := Keyboard.keyboard_rows names in
  concat rows = map Keyboard.format_button names
  /\ Forall (fun r => (1 <= length r <= 2)%nat) rows
  /\ length rows = ((length names + 1) / 2)%nat.
Proof.
  unfold Keyboard.keyboard_rows.
  destruct (keyboard_loop_spec (length names) names 0 [] [])
    as (Hc & Hf & Hl); try reflexivity; try (simpl; lia); [constructor |].
  simpl in *. auto.
Qed.

Lemma split_convert x :
  split_on "_" x = [x] -> split_on "_" ("convert_" +:+ x) = ["convert"; x].
Proof.
  intros H. rewrite !string_app_cons. change ("" +:+ x) with x.
  simpl. rewrite H. reflexivity.
Qed.

(** X6: a button leads back to its format.  For a format name without
    underscore whose letters [upper] restores, the callback data of its
    button parses to the name itself; and this holds for every button of
    the bot's keyboard, whose label is moreover a supported format. *)
Theorem button_round_trip :
  (forall (w : world) (format_name : string) (s : state),
     Keyboard.plain_name w format_name ->
     parse_target_format w
       (Keyboard.callback_data (Keyboard.format_button format_name)) s
     = (Ok format_name, s))
  /\ (forall (w : world) (b : Keyboard.button) (s : state),
        b ∈ concat Keyboard.get_format_buttons ->
        parse_target_format w (Keyboard.callback_data b) s
        = (Ok (Keyboard.text b), s)
        /\ is_Some (dict_get SUPPORTED_FORMATS (Keyboard.text b))).
Proof.
  assert (Hplain : forall w format_name s,
             Keyboard.plain_name w format_name ->
             parse_target_format w
               (Keyboard.callback_data (Keyboard.format_button format_name)) s
             = (Ok format_name, s)).
  { intros w name s [Hcase Hsplit]. unfold parse_target_format.
    cbn [Keyboard.callback_data Keyboard.format_button].
    rewrite (split_convert _ Hsplit). rewrite Hcase. reflexivity. }
  split; [exact Hplain |].
  intros w b s Hb. unfold Keyboard.get_format_buttons in Hb.
  rewrite keyboard_rows_concat in Hb.
  apply list_elem_of_fmap in Hb as (name & -> & Hname).
  apply list_elem_of_fmap in Hname as ([name' ext] & -> & Hin).
  simpl.
  assert (Hall : Forall (fun p : string * string =>
                   Keyboard.plain_name w (fst p)
                   /\ is_Some (dict_get SUPPORTED_FORMATS (fst p)))
                   SUPPORTED_FORMATS).
  { repeat constructor; eexists; reflexivity. }
  rewrite Forall_forall in Hall. destruct (Hall _ Hin) as [Hp Hs].
  split; [apply Hplain; exact Hp | exact Hs].
Qed.

Lemma button_round_trip_witness :
  parse_target_format Scenarios.demo_world
    (Keyboard.callback_data (Keyboard.format_button "WEBP"))
    Scenarios.no_session
  = (Ok "WEBP", Scenarios.no_session).
Proof.
  apply (proj1 button_round_trip Scenarios.demo_world "WEBP"
           Scenarios.no_session).
  split; reflexivity.
Defined.

(** *** The summary of the pending images *)

Lemma counted_dict_incr k d :
  Disk.counted (dict_incr k d) = S (Disk.counted d).
Proof.
  induction d as [| [k' n] d IH]; simpl; [reflexivity |].
  destruct (bool_decide (k' = k)); simpl; [lia | rewrite IH; lia].
Qed.

Lemma image_info_fold disk paths : forall acc,
  let out := fold_left (image_info_step disk) paths acc in
  fst out = fst acc + foldr Z.add 0 (map (Disk.size_on_disk disk) paths)
  /\ Disk.counted (snd out)
     = (Disk.counted (snd acc)
        + length (filter (fun p => Disk.opens disk p) paths))%nat.
Proof.
  induction paths as [| path rest IH]; intros acc; simpl.
  - split; lia.
  - destruct (IH (image_info_step disk acc path)) as [Hsize Hcount].
    simpl in Hsize, Hcount. rewrite Hsize, Hcount. clear IH Hsize Hcount.
    unfold image_info_step, Disk.size_on_disk, Disk.opens.
    destruct (disk !! path) as [f |] eqn:Hpath; simpl.
    + destruct (f_image f) as [img |] eqn:Himg; simpl.
      * rewrite filter_cons_True
          by (unfold Disk.opens; rewrite Hpath, Himg; simpl; exact I).
        rewrite counted_dict_incr. simpl. split; lia.
      * rewrite filter_cons_False
          by (unfold Disk.opens; rewrite Hpath, Himg; simpl; intros []).
        split; lia.
    + rewrite filter_cons_False
        by (unfold Disk.opens; rewrite Hpath; intros []).
      split; lia.
Qed.

(** X7: the summary of the pending images reads the disk and changes
    nothing.  It counts every pending entry, present or not ("Total
    images"); the size is the sum over the files that are there; and the
    table of formats accounts for exactly the files that are there and
    open as images, so a file that does not decode adds to the size but
    to no format. *)
Theorem image_info_counts (pending : list (string * string)) (s : state) :
  exists total_size formats,
    get_image_info pending s
    = (Ok (MsgStatus (length pending) total_size formats), s)
    /\ total_size
       = foldr Z.add 0 (map (Disk.size_on_disk (fs s)) (map fst pending))
    /\ Disk.counted formats
       = length (filter (fun p => Disk.opens (fs s) p) (map fst pending))
    /\ (Disk.counted formats <= length pending)%nat.
Proof.
  unfold get_image_info, bind, get, ret. simpl.
  destruct (image_info_fold (fs s) (map fst pending) (0, [])) as [Hsize Hcount].
  simpl in Hsize, Hcount.
  eexists _, _. split; [rewrite length_map; reflexivity |].
  split; [exact Hsize | split; [exact Hcount |]].
  rewrite Hcount.
  etransitivity; [apply length_filter | rewrite length_map; reflexivity].
Qed.

(** *** A photo arrives *)

Ltac unfold_photo :=
  unfold Photo.handle_image_try, show_status, get_image_info, init_user_data,
    named_temporary_file, append_pending, write_file, set_message_to_edit,
    tx, try_except, bind, ret, raise, get, modify in *.

(** The temporary file of a photo can be created when its
    [file_unique_id] is at most 233 bytes long. *)
Lemma photo_suffix_fits id :
  fits_temporary_name ("_" +:+ "image_" +:+ id +:+ ".jpg")
  = (String.length id <=? 233)%nat.
Proof.
  unfold fits_temporary_name, NAME_MAX.
  rewrite !string_length_app. simpl String.length.
  destruct (Nat.leb_spec (String.length id) 233);
    [apply Nat.leb_le | apply Nat.leb_gt]; lia.
Qed.

(** X8: a photo that arrives over a working transport is staged once.
    The largest size (the last of the list) is downloaded to a fresh
    temporary file, the pending list grows by that file under the name
    [image_<file_unique_id>.jpg], what was pending before stays in front,
    and the status message that is shown counts the whole list and is
    remembered for the next edit.  The [file_unique_id] is at most 233
    bytes long, so that the temporary file can be created. *)
Theorem photo_is_staged (w : world) (sizes : list Photo.photo_size)
    (photo : Photo.photo_size) (s : state) :
  (forall n, tx_ok w n = true) ->
  last sizes = Some photo ->
  (String.length (Photo.file_unique_id photo) <= 233)%nat ->
  let before := default [] (pending_images (user s)) in
  let name := "image_" +:+ Photo.file_unique_id photo +:+ ".jpg" in
  let path := tmp_name w (temps s) ("_" +:+ name) in
  let s' := snd (Photo.handle_image_try w sizes s) in
  fst (Photo.handle_image_try w sizes s) = Ok tt
  /\ pending_images (user s') = Some (before ++ [(path, name)])
  /\ fs s' = <[path := Photo.photo_file photo]> (fs s)
  /\ is_Some (message_to_edit (user s'))
  /\ exists h total formats,
       last (trace s')
       = Some (h (MsgStatus (S (length before)) total formats))
       /\ (h = EReply \/ exists handle, h = EEdit handle).
Proof.
  intros Htx Hlast Hshort. apply Nat.leb_le in Hshort.
  rewrite <- photo_suffix_fits in Hshort.
  destruct s as [disk st [[pending |] [handle |]] l t n k];
    simpl; unfold_photo; rewrite Hlast; simpl;
    repeat (progress (rewrite ?Htx, ?Hshort; simpl));
    rewrite insert_insert_eq, last_snoc;
    rewrite ?length_map, ?length_app; simpl;
    rewrite ?Nat.add_1_r;
    (repeat split; [eauto | eexists _, _, _; split; [reflexivity | eauto]]).
Qed.

Lemma photo_is_staged_witness :
  pending_images
    (user (snd (Photo.handle_image_try Scenarios2.tidy_world
                  Scenarios2.a_photo Scenarios.no_session)))
  = Some [("._image_AQADBAAD.jpg", "image_AQADBAAD.jpg")].
Proof.
  apply (photo_is_staged Scenarios2.tidy_world Scenarios2.a_photo
           (Photo.PhotoSize "AQADBAAD"
              (File 900 (Some (Scenarios.picture "RGB" 9))))
           Scenarios.no_session).
  - intros n. reflexivity.
  - reflexivity.
  - simpl. lia.
Defined.

(** X9: a photo that cannot be fetched is not staged.  With no size in
    the message, or when [get_file] fails, or when the [file_unique_id]
    is too long for the temporary file to be created, nothing is written;
    when the download fails the temporary file is already there and stays,
    empty, on disk.  In each case the [try] block ends in the exception
    and the pending list holds what it held. *)
Theorem photo_not_fetched (w : world) (sizes : list Photo.photo_size)
    (s : state) :
  let before := default [] (pending_images (user s)) in
  let run := Photo.handle_image_try w sizes s in
  (last sizes = None ->
   fst run = Raise IndexError
   /\ pending_images (user (snd run)) = Some before
   /\ fs (snd run) = fs s)
  /\ (forall photo, last sizes = Some photo ->
      tx_ok w (length (trace s)) = false ->
      fst run = Raise TransportError
      /\ pending_images (user (snd run)) = Some before
      /\ fs (snd run) = fs s)
  /\ (forall photo, last sizes = Some photo ->
      tx_ok w (length (trace s)) = true ->
      (233 < String.length (Photo.file_unique_id photo))%nat ->
      fst run = Raise OSError
      /\ pending_images (user (snd run)) = Some before
      /\ fs (snd run) = fs s)
  /\ (forall photo, last sizes = Some photo ->
      tx_ok w (length (trace s)) = true ->
      (String.length (Photo.file_unique_id photo) <= 233)%nat ->
      tx_ok w (S (length (trace s))) = false ->
      fst run = Raise TransportError
      /\ pending_images (user (snd run)) = Some before
      /\ fs (snd run)
         = <[tmp_name w (temps s)
               ("_" +:+ "image_" +:+ Photo.file_unique_id photo +:+ ".jpg")
             := empty_file]> (fs s)).
Proof.
  destruct s as [disk st [[pending |] handle] l t n k]; simpl;
    (split; [| split; [| split]]).
  all: try (intros Hlast; unfold_photo; rewrite Hlast; simpl; auto; fail).
  all: try (intros photo Hlast Hget; unfold_photo; rewrite Hlast; simpl;
            rewrite Hget; simpl; auto; fail).
  all: try (intros photo Hlast Hget Hlong; apply Nat.leb_gt in Hlong;
            rewrite <- photo_suffix_fits in Hlong;
            unfold_photo; rewrite Hlast; simpl;
            rewrite Hget; simpl; rewrite Hlong; simpl; auto; fail).
  all: intros photo Hlast Hget Hshort Hdown; apply Nat.leb_le in Hshort;
    rewrite <- photo_suffix_fits in Hshort;
    unfold_photo; rewrite Hlast; simpl;
    rewrite Hget; simpl; rewrite Hshort; simpl; rewrite length_app; simpl;
    rewrite Nat.add_1_r, Hdown; simpl; auto.
Qed.

Lemma photo_not_fetched_witness :
  let run := Photo.handle_image_try (Scenarios2.drop_after 1)
               Scenarios2.a_photo Scenarios.no_session in
  fst run = Raise TransportError
  /\ pending_images (user (snd run)) = Some []
  /\ fs (snd run) = <["._image_AQADBAAD.jpg" := empty_file]> ∅.
Proof.
  apply (proj2 (proj2 (proj2 (photo_not_fetched (Scenarios2.drop_after 1)
                                Scenarios2.a_photo Scenarios.no_session)))
           (Photo.PhotoSize "AQADBAAD"
              (File 900 (Some (Scenarios.picture "RGB" 9))))).
  - reflexivity.
  - reflexivity.
  - simpl. lia.
  - reflexivity.
Defined.

(** *** Documents that are not a usable archive *)

Ltac unfold_document :=
  unfold handle_document, show_status, get_image_info, init_user_data,
    named_temporary_file, append_pending, write_file, set_message_to_edit,
    unlink, tx, try_except, bind, ret, raise, get, modify in *.

(** X10: a document that is not a ZIP archive is answered and otherwise
    ignored: nothing is fetched, nothing is written to disk, and the
    session is not even initialised. *)
Theorem other_documents_are_refused (w : world) (doc : document)
    (s : state) :
  mime_type doc <> "application/zip" ->
  let s' := snd (handle_document w doc s) in
  fs s' = fs s /\ user s' = user s /\ temps s' = temps s
  /\ (trace s' = trace s ++ [EReply MsgNotZip]
      \/ trace s' = trace s ++ [EReply MsgNotZip; EReply MsgDocumentError]).
Proof.
  intros Hmime. destruct s as [disk st u l t n k]. simpl.
  unfold_document. rewrite (bool_decide_eq_false_2 _ Hmime). simpl.
  destruct (tx_ok w (length t)); simpl.
  - auto.
  - destruct (tx_ok w _); simpl; rewrite <- app_assoc; auto.
Qed.

Lemma other_documents_are_refused_witness :
  let s' := snd (handle_document Scenarios2.tidy_world
                   {| mime_type := "application/pdf";
                      doc_file := File 10 None;
                      doc_extracted := None |}
                   Scenarios.no_session) in
  fs s' = ∅ /\ user s' = user Scenarios.no_session /\ temps s' = 0%nat
  /\ (trace s' = [] ++ [EReply MsgNotZip]
      \/ trace s' = [] ++ [EReply MsgNotZip; EReply MsgDocumentError]).
Proof.
  apply (other_documents_are_refused Scenarios2.tidy_world
           {| mime_type := "application/pdf";
              doc_file := File 10 None;
              doc_extracted := None |}
           Scenarios.no_session).
  discriminate.
Defined.

(** X11: an archive that cannot be read stages nothing: the handler ends
    with its apology, the pending list holds what it held, and the
    downloaded file is left on disk under its temporary name. *)
Theorem unreadable_archive_stages_nothing (w : world) (doc : document)
    (s : state) :
  mime_type doc = "application/zip" ->
  doc_extracted doc = None ->
  tx_ok w (length (trace s)) = true ->
  tx_ok w (S (length (trace s))) = true ->
  let s' := snd (handle_document w doc s) in
  pending_images (user s')
  = Some (default [] (pending_images (user s)))
  /\ fs s' = <[tmp_name w (temps s) ".zip" := doc_file doc]> (fs s)
  /\ last (trace s') = Some (EReply MsgDocumentError).
Proof.
  intros Hmime Hzip Hget Hdown.
  destruct s as [disk st [[pending |] handle] l t n k]; simpl in *;
    unfold_document; rewrite (bool_decide_eq_true_2 _ Hmime); simpl;
    rewrite Hget; simpl; rewrite length_app; simpl;
    rewrite Nat.add_1_r, Hdown, Hzip; simpl;
    clear Hget Hdown;
    (destruct (tx_ok w _); simpl;
     (split; [reflexivity | split; [apply insert_insert_eq | apply last_snoc]])).
Qed.

Lemma unreadable_archive_stages_nothing_witness :
  let s' := snd (handle_document Scenarios2.tidy_world
                   {| mime_type := "application/zip";
                      doc_file := File 10 None;
                      doc_extracted := None |}
                   Scenarios.no_session) in
  pending_images (user s') = Some []
  /\ fs s' = <["..zip" := File 10 None]> ∅
  /\ last (trace s') = Some (EReply MsgDocumentError).
Proof.
  apply (unreadable_archive_stages_nothing Scenarios2.tidy_world
           {| mime_type := "application/zip";
              doc_file := File 10 None;
              doc_extracted := None |}
           Scenarios.no_session);
    reflexivity.
Defined.

(** *** What staging leaves on disk *)

Lemma stage_extracted_files w entries :
  Disk.distinct_names w ->
  forall s pending,
    pending_images (user s) = Some pending ->
    exists r s' staged,
      stage_extracted w entries s = (r, s')
      /\ r = (if forallb stageable entries then Ok tt else Raise OSError)
      /\ pending_images (user s') = Some (pending ++ staged)
      /\ (temps s <= temps s')%nat
      /\ Forall (fun item =>
           exists f n,
             (snd item, Regular f) ∈ entries
             /\ fst item = tmp_name w n ("_" +:+ snd item)
             /\ (temps s <= n)%nat
             /\ fs s' !! fst item = Some f) staged
      /\ (forall p,
            (forall n suffix, (temps s <= n)%nat -> p <> tmp_name w n suffix) ->
            fs s' !! p = fs s !! p).
Proof.
  intros Hdistinct. unfold stage_extracted.
  induction entries as [| entry rest IH]; intros s pending Hpending.
  - exists (Ok tt), s, []. rewrite app_nil_r. simpl.
    repeat split; auto.
  - destruct (stage_entry_run w entry s pending Hpending)
      as (r1 & s1 & Hentry & _ & Hskip & Hstop & Hstage).
    simpl. unfold bind. rewrite Hentry.
    destruct (accepted entry) eqn:Hacc.
    + destruct (stageable entry) eqn:Hfit.
      * destruct (Hstage eq_refl eq_refl)
          as (-> & f & Hfile & Hpending1 & Hfs1 & Htemps1).
        destruct (IH s1 _ Hpending1)
          as (r & s' & staged & Hrest & Hr & Hpending' & Hle & Hall & Hframe).
        exists r, s', ((tmp_name w (temps s) ("_" +:+ fst entry), fst entry)
                       :: staged).
        split; [exact Hrest |]. split; [exact Hr |].
        rewrite Hpending', <- app_assoc.
        split; [reflexivity |]. split; [lia |]. split; [| ].
        -- constructor.
           ++ exists f, (temps s). simpl.
              split; [| split; [reflexivity | split; [lia |]]].
              ** destruct entry as [name n]. simpl in *. subst n.
                 apply list_elem_of_here.
              ** rewrite Hframe, Hfs1; [apply lookup_insert_eq |].
                 intros n suffix Hn Heq. apply Hdistinct in Heq. lia.
           ++ eapply Forall_impl; [exact Hall |].
              intros item (f' & n & Hin & Hpath & Hn & Hlook).
              exists f', n. repeat split; try assumption; [| lia].
              apply list_elem_of_further. exact Hin.
        -- intros p Hp. rewrite Hframe, Hfs1.
           ++ apply lookup_insert_ne. intros Heq.
              eapply Hp; [| symmetry; exact Heq]. lia.
           ++ intros n suffix Hn. apply Hp. lia.
      * destruct (Hstop eq_refl eq_refl) as [-> ->].
        exists (Raise OSError), s, []. rewrite app_nil_r.
        repeat split; auto.
    + destruct (Hskip eq_refl) as [-> ->].
      assert (Hfit : stageable entry = true)
        by (unfold stageable; rewrite Hacc; reflexivity).
      rewrite Hfit. simpl.
      destruct (IH s _ Hpending)
        as (r & s' & staged & Hrest & Hr & Hpending' & Hle & Hall & Hframe).
      exists r, s', staged. repeat split; try assumption.
      eapply Forall_impl; [exact Hall |].
      intros item (f' & n & Hin & Hpath & Hn & Hlook).
      exists f', n. repeat split; try assumption.
      apply list_elem_of_further. exact Hin.
Qed.

(** X12: what an archive leaves on disk.  With temporary names that are
    told apart by their numbers, after the archive is read every image
    that was staged is on disk, under its temporary path, with the content
    of a regular file of that name at the top level of the archive.  The
    downloaded archive itself is gone when the staging loop ran to its
    end, and is left on disk when the loop stopped at an image whose name
    is too long for its temporary file. *)
Theorem staged_files_hold_the_entries (w : world) (doc : document)
    (entries : list (string * node)) (s : state) :
  Disk.distinct_names w ->
  mime_type doc = "application/zip" ->
  doc_extracted doc = Some entries ->
  tx_ok w (length (trace s)) = true ->
  tx_ok w (S (length (trace s))) = true ->
  let s' := snd (handle_document w doc s) in
  fs s' !! tmp_name w (temps s) ".zip"
  = (if forallb stageable entries then None else Some (doc_file doc))
  /\ exists staged,
       pending_images (user s')
       = Some (default [] (pending_images (user s)) ++ staged)
       /\ Forall (fun item =>
            exists f, (snd item, Regular f) ∈ entries
                      /\ fs s' !! fst item = Some f) staged.
Proof.
  intros Hdistinct Hmime Hzip Hget Hdownload. simpl.
  destruct (handle_document w doc s) as [r s'] eqn:Hrun. simpl.
  unfold handle_document, try_except in Hrun.
  rewrite bool_decide_eq_true_2 in Hrun by exact Hmime.
  unfold bind at 1, init_user_data, modify at 1 in Hrun.
  pose proof (init_user_data_pending s) as Hinit.
  set (sa := set_user _ s) in *. cbv beta iota in Hrun.
  assert (Hsa : trace sa = trace s /\ temps sa = temps s /\ fs sa = fs s)
    by (repeat split).
  clearbody sa. destruct Hsa as (Htrace_a & Htemps_a & Hfs_a).
  unfold bind at 1, tx at 1 in Hrun. rewrite Htrace_a, Hget in Hrun.
  cbv beta iota in Hrun.
  unfold bind at 1, named_temporary_file at 1 in Hrun.
  rewrite zip_suffix_fits in Hrun.
  unfold bind at 1, get at 1 in Hrun. cbv beta iota in Hrun.
  unfold bind at 1, modify at 1 in Hrun. cbv beta iota in Hrun.
  unfold bind at 1, write_file at 1, modify at 1 in Hrun.
  cbv beta iota in Hrun. unfold ret at 1 in Hrun. cbv beta iota in Hrun.
  unfold bind at 1, tx at 1 in Hrun.
  simpl trace in Hrun. rewrite Htrace_a, length_app in Hrun.
  simpl length in Hrun. rewrite Nat.add_1_r, Hdownload in Hrun.
  cbv beta iota in Hrun.
  unfold bind at 1, write_file at 1, modify at 1 in Hrun.
  cbv beta iota in Hrun.
  rewrite Hzip in Hrun. unfold bind at 1, ret at 1 in Hrun.
  cbv beta iota in Hrun.
  unfold bind at 1 in Hrun.
  simpl temps in Hrun. rewrite Htemps_a in Hrun.
  set (zip := tmp_name w (temps s) ".zip") in *.
  match type of Hrun with
  | context [stage_extracted w entries ?sd] => remember sd as sdv eqn:Hsdv
  end.
  assert (Hsd : temps sdv = S (temps s)
                /\ fs sdv !! zip = Some (doc_file doc)
                /\ pending_images (user sdv)
                   = Some (default [] (pending_images (user s)))).
  { subst sdv. simpl. rewrite Htemps_a. split; [reflexivity |].
    split; [apply lookup_insert_eq | exact Hinit]. }
  clear Hsdv. destruct Hsd as (Htemps_d & Hzip_d & Hpending_d).
  destruct (stage_extracted_files w entries Hdistinct sdv _ Hpending_d)
    as (r1 & se & staged & Hstage & Hr1 & Hpending & Hle & Hall & Hframe).
  rewrite Hstage in Hrun. cbv beta iota in Hrun.
  assert (Hzip_e : fs se !! zip = Some (doc_file doc)).
  { rewrite Hframe; [exact Hzip_d |].
    intros n suffix Hn Heq. apply Hdistinct in Heq. lia. }
  assert (Hn1 : keeps fs (tx w (EReply MsgDocumentError) ;; ret tt))
    by keeps_auto.
  assert (Hn2 : keeps (fun s => pending_images (user s))
                  (tx w (EReply MsgDocumentError) ;; ret tt))
    by keeps_auto.
  destruct (forallb stageable entries); subst r1.
  2:{ rewrite (Hn1 _ _ _ Hrun), (Hn2 _ _ _ Hrun).
      split; [exact Hzip_e |].
      exists staged. split; [exact Hpending |].
      eapply Forall_impl; [exact Hall |].
      intros item (f & n & Hin & _ & _ & Hlook). eauto. }
  unfold bind at 1, unlink at 1 in Hrun. rewrite Hzip_e in Hrun.
  cbv beta iota in Hrun.
  set (sf := set_fs (delete zip) se) in *.
  assert (Htail : fs s' = fs sf
                  /\ pending_images (user s') = pending_images (user sf)).
  { match type of Hrun with
    | match ?tail sf with _ => _ end = _ =>
        assert (Hk1 : keeps fs tail)
          by (unfold get_image_info, show_status, set_message_to_edit;
              keeps_auto);
        assert (Hk2 : keeps (fun s => pending_images (user s)) tail)
          by (unfold get_image_info, show_status, set_message_to_edit;
              keeps_auto);
        destruct (tail sf) as [[[] | e] sg] eqn:Hsg;
        pose proof (Hk1 _ _ _ Hsg) as Hfs_g;
        pose proof (Hk2 _ _ _ Hsg) as Hp_g
    end.
    - injection Hrun as <- <-. auto.
    - rewrite (Hn1 _ _ _ Hrun), (Hn2 _ _ _ Hrun). auto. }
  destruct Htail as [-> ->]. subst sf. simpl.
  split; [apply lookup_delete_eq |].
  exists staged. split; [exact Hpending |].
  eapply Forall_impl; [exact Hall |].
  intros item (f & n & Hin & Hpath & Hn & Hlook).
  exists f. split; [exact Hin |].
  rewrite lookup_delete_ne; [exact Hlook |].
  rewrite Hpath. subst zip. intros Heq. apply Hdistinct in Heq. lia.
Qed.

Lemma unary_name_distinct : Disk.distinct_names Scenarios2.tidy_world.
Proof.
  intros n. simpl.
  induction n as [| n IH]; intros [| m] suffix suffix' Heq; simpl in Heq;
    try discriminate; [reflexivity |].
  injection Heq as Heq. f_equal. eapply IH, Heq.
Qed.

Lemma staged_files_hold_the_entries_witness :
  let s' := snd (handle_document Scenarios2.tidy_world
                   (Scenarios.zip_of Scenarios.five_files)
                   Scenarios.no_session) in
  fs s' !! "..zip" = None
  /\ exists staged,
       pending_images (user s') = Some ([] ++ staged)
       /\ Forall (fun item =>
            exists f, (snd item, Regular f) ∈ Scenarios.five_files
                      /\ fs s' !! fst item = Some f) staged.
Proof.
  apply (staged_files_hold_the_entries Scenarios2.tidy_world
           (Scenarios.zip_of Scenarios.five_files)
           Scenarios.five_files Scenarios.no_session
           unary_name_distinct eq_refl eq_refl eq_refl eq_refl).
Defined.

(** *** Taking a run of the handler apart *)

Lemma same_but_trace_refl s : Callback.same_but_trace s s.
Proof. repeat split. Qed.

Lemma same_but_trace_trans s1 s2 s3 :
  Callback.same_but_trace s1 s2 -> Callback.same_but_trace s2 s3 ->
  Callback.same_but_trace s1 s3.
Proof.
  unfold Callback.same_but_trace. intros (? & ? & ? & ? & ? & ?)
    (? & ? & ? & ? & ? & ?). repeat split; congruence.
Qed.

Lemma parse_target_format_of w data s :
  parse_target_format w data s
  = match Callback.target_of w data with
    | Some target_format => (Ok target_format, s)
    | None => (Raise IndexError, s)
    end.
Proof.
  unfold parse_target_format, Callback.target_of.
  destruct (split_on "_" data) as [| first [| piece others]]; reflexivity.
Qed.

(** A notice sent at the end: one more event, or two when it fails inside
    the [try] and the outer handler reports it. *)
Lemma notice_run w m r s s' :
  (tx w (EReply m) ;; ret tt) s = (r, s') ->
  Callback.same_but_trace s s' /\ trace s' = trace s ++ [EReply m].
Proof.
  unfold bind, tx, ret. intros Hrun.
  assert (s' = set_trace (fun t => t ++ [EReply m]) s) as ->
    by (destruct (tx_ok w (length (trace s))); congruence).
  split; [repeat split | reflexivity].
Qed.

Lemma set_loc_fresh s :
  loc s = fresh_locals -> set_loc (fun _ => fresh_locals) s = s.
Proof. destruct s. simpl. intros ->. reflexivity. Qed.

Ltac replies_tac :=
  repeat (constructor;
          [first [left; reflexivity | right; eexists; reflexivity] |]);
  constructor.

Lemma replies_only new :
  Forall (fun e => e = EAnswer \/ exists m, e = EReply m) new ->
  archive_events new = [] /\ saved_images new = []
  /\ sent_archives new = [] /\ progress_counts new = [].
Proof.
  induction 1 as [| e new [-> | [m ->]] _ (Ha & Hs & Hd & Hp)];
    [repeat split | |];
    (change (?x :: new) with ([x] ++ new);
     unfold sent_archives in *;
     rewrite archive_events_app, saved_images_app, progress_counts_app,
       omap_app, Ha, Hs, Hd, Hp; repeat split).
Qed.

(** A run of [button_callback] either converts nothing and leaves all but
    the trace alone, or consists of the loop over the pending images from
    fresh locals, followed, if the loop ends, by the delivery. *)
Lemma button_callback_cases w data s r s' :
  button_callback w data s = (r, s') ->
  loc s = fresh_locals ->
  (Callback.same_but_trace s s'
   /\ exists new,
        trace s' = trace s ++ new
        /\ Forall (fun e => e = EAnswer \/ exists m, e = EReply m) new)
  \/ exists target_format pending status s1 r2 s2,
       Callback.target_of w data = Some target_format
       /\ pending_images (user s) = Some pending
       /\ pending <> []
       /\ Callback.same_but_trace s s1
       /\ trace s1 = trace s ++ [EAnswer;
                                 EReply (MsgPreparing (length pending)
                                           target_format)]
       /\ convert_all w status target_format pending s1 = (r2, s2)
       /\ exists s3,
            (trace s' = trace s3 \/ trace s' = trace s3 ++ [EReply MsgCritical])
            /\ Callback.same_but_trace s3 s'
            /\ ((exists e, r2 = Raise e) /\ s3 = s2
                \/ r2 = Ok tt
                   /\ exists r3,
                        finish_batch w status target_format pending s2
                        = (r3, s3)).
Proof.
  intros Hrun Hfresh. unfold button_callback in Hrun.
  unfold bind at 1 in Hrun. unfold tx at 1 in Hrun.
  set (s0 := set_trace _ s) in Hrun.
  assert (H0 : Callback.same_but_trace s s0
               /\ trace s0 = trace s ++ [EAnswer]) by (repeat split).
  clearbody s0. destruct H0 as (Hsame0 & Htrace0).
  assert (Hidle : forall s1,
             Callback.same_but_trace s0 s1 ->
             (trace s1 = trace s0
              \/ (exists m1, trace s1 = trace s0 ++ [EReply m1])
              \/ (exists m1 m2,
                    trace s1 = trace s0 ++ [EReply m1; EReply m2])) ->
             Callback.same_but_trace s s1
             /\ exists new,
                  trace s1 = trace s ++ new
                  /\ Forall (fun e => e = EAnswer \/ exists m, e = EReply m)
                       new).
  { intros s1 Hsame Htr. split; [eapply same_but_trace_trans; eassumption |].
    destruct Htr as [-> | [[m1 ->] | (m1 & m2 & ->)]]; rewrite Htrace0,
      <- ?app_assoc; eexists; (split; [reflexivity |]);
      replies_tac. }
  destruct (tx_ok w (length (trace s))).
  2:{ injection Hrun as <- <-. left. apply Hidle; [apply same_but_trace_refl |].
      auto. }
  unfold try_except in Hrun.
  unfold bind at 1 in Hrun. rewrite parse_target_format_of in Hrun.
  destruct (Callback.target_of w data) as [target_format |] eqn:Htarget.
  2:{ left. apply notice_run in Hrun as [Hsame Htr].
      apply Hidle; [exact Hsame | eauto]. }
  unfold bind at 1, get at 1 in Hrun.
  assert (Hpending0 : pending_images (user s0) = pending_images (user s))
    by (destruct Hsame0 as (_ & _ & -> & _); reflexivity).
  destruct (pending_images (user s0)) as [[| item rest] |] eqn:Hpending.
  1,3: left;
       destruct ((tx w (EReply MsgNoImagesFound) ;; ret tt) s0)
         as [[[] | e] s1] eqn:Hsend;
       apply notice_run in Hsend as [Hsame1 Htr1];
       [ injection Hrun as <- <-; apply Hidle; eauto
       | apply notice_run in Hrun as [Hsame2 Htr2];
         apply Hidle;
         [ eapply same_but_trace_trans; eassumption
         | right; right; eexists _, _;
           rewrite Htr2, Htr1, <- app_assoc; reflexivity ] ].
  unfold run_batch in Hrun.
  unfold bind at 1 in Hrun. unfold tx at 1 in Hrun.
  set (s1 := set_trace _ s0) in Hrun.
  assert (H1 : Callback.same_but_trace s s1
               /\ trace s1 = trace s ++ [EAnswer;
                                         EReply (MsgPreparing
                                                   (length (item :: rest))
                                                   target_format)]).
  { split.
    - eapply same_but_trace_trans; [exact Hsame0 | repeat split].
    - subst s1. simpl trace. rewrite Htrace0, <- app_assoc. reflexivity. }
  clearbody s1. destruct H1 as (Hsame1 & Htrace1).
  destruct (tx_ok w (length (trace s0))).
  2:{ left. cbv beta iota in Hrun.
      apply notice_run in Hrun as [Hsame2 Htr2]. split.
      - eapply same_but_trace_trans; eassumption.
      - rewrite Htr2, Htrace1, <- app_assoc. eexists.
        split; [reflexivity |]. replies_tac. }
  cbv beta iota in Hrun.
  unfold bind at 1, modify at 1 in Hrun. cbv beta iota in Hrun.
  rewrite set_loc_fresh in Hrun
    by (destruct Hsame1 as (_ & _ & _ & -> & _); exact Hfresh).
  unfold bind at 1 in Hrun.
  destruct (convert_all w (length (trace s0)) target_format (item :: rest) s1)
    as [r2 s2] eqn:Hloop.
  right. exists target_format, (item :: rest), (length (trace s0)), s1, r2, s2.
  split; [reflexivity |]. split; [symmetry; exact Hpending0 |].
  split; [discriminate |]. split; [exact Hsame1 |]. split; [exact Htrace1 |].
  split; [exact Hloop |].
  destruct r2 as [[] | e].
  - destruct (finish_batch w (length (trace s0)) target_format (item :: rest) s2)
      as [[[] | e] s3] eqn:Hfin.
    + injection Hrun as <- <-. exists s3.
      split; [left; reflexivity |]. split; [apply same_but_trace_refl |].
      right. split; [reflexivity | exists (Ok tt); reflexivity].
    + apply notice_run in Hrun as [Hsame3 Htr3]. exists s3.
      split; [right; exact Htr3 |]. split; [exact Hsame3 |].
      right. split; [reflexivity | exists (Raise e); reflexivity].
  - apply notice_run in Hrun as [Hsame3 Htr3]. exists s2.
    split; [right; exact Htr3 |]. split; [exact Hsame3 |].
    left. split; [exists e; reflexivity | reflexivity].
Qed.

(** *** The ledger of one item *)

Lemma process_item_ledger w status target_format total item s r s' :
  process_item w status target_format total item s = (r, s') ->
  let l := loc s in
  let l' := loc s' in
  (stats s' = stats s
   /\ converted_files_paths l' = converted_files_paths l
   /\ successfully_converted_count l' = successfully_converted_count l
   /\ total_converted_size l' = total_converted_size l
   /\ total_original_size l <= total_original_size l')
  \/ exists o c today month out ext,
       0 < o /\ 0 < c
       /\ dict_get SUPPORTED_FORMATS target_format = Some ext
       /\ stats s'
          = Stats.update_conversion_stats o c target_format today month
              (stats s)
       /\ converted_files_paths l'
          = converted_files_paths l
            ++ [(out, Callback.archive_name ext (snd item))]
       /\ successfully_converted_count l'
          = S (successfully_converted_count l)
       /\ total_converted_size l' = total_converted_size l + c
       /\ total_original_size l' = total_original_size l + o.
Proof.
  intros Hrun. unfold_item. simpl in Hrun.
  repeat (simplify_eq/=; rewrite ?lookup_insert_eq in *; case_match).
  all: simplify_eq/=.
  all: try (left; repeat split; try reflexivity; lia).
  all: right.
  all: repeat match goal with
         | H : (_ =? _) = false |- _ => apply Z.eqb_neq in H
         end.
  all: do 6 eexists.
  all: (split; [| split; [| repeat split; reflexivity]]).
  all: lia.
Qed.

(** *** The books of a run *)

Ltac ledger_split :=
  split; [| split; [| split; [| split; [| split]]]].

Lemma ledger_refl s : Callback.ledger s s.
Proof. unfold Callback.ledger. ledger_split; auto; lia. Qed.

Lemma ledger_trans s1 s2 s3 :
  Callback.ledger s1 s2 -> Callback.ledger s2 s3 -> Callback.ledger s1 s3.
Proof.
  unfold Callback.ledger.
  intros (? & ? & ? & ? & ? & ?) (? & ? & ? & ? & ? & ?).
  ledger_split; auto; lia.
Qed.

Lemma ledger_same s s' :
  stats s' = stats s -> loc s' = loc s -> Callback.ledger s s'.
Proof.
  intros Hs Hl. unfold Callback.ledger. rewrite Hs, Hl.
  ledger_split; auto; lia.
Qed.

Lemma process_item_books w status target_format total item s r s' :
  process_item w status target_format total item s = (r, s') ->
  Callback.ledger s s'.
Proof.
  intros Hrun. apply process_item_ledger in Hrun.
  destruct Hrun as [(Hs & _ & Hc & Ht & Ho)
                   | (o & c & today & month & out & ext & Ho & Hc & _ & Hs
                      & _ & Hn & Htc & Hto)];
    unfold Callback.ledger; rewrite Hs.
  - rewrite Hc, Ht. ledger_split; auto; lia.
  - rewrite Hn, Htc, Hto. simpl.
    ledger_split; try lia.
    + apply update_keeps_consistent.
    + apply update_keeps_sizes.
Qed.

Lemma for_each_books {A} (body : A -> M unit) (l : list A) :
  (forall x s r s', body x s = (r, s') -> Callback.ledger s s') ->
  forall s r s', for_each l body s = (r, s') -> Callback.ledger s s'.
Proof.
  intros Hbody. induction l as [| x l IH]; intros s r s' Hrun; simpl in Hrun.
  - injection Hrun as <- <-. apply ledger_refl.
  - unfold bind in Hrun. destruct (body x s) as [[[] | e] s1] eqn:Hx.
    + eapply ledger_trans; [eapply Hbody, Hx | eapply IH, Hrun].
    + injection Hrun as <- <-. eapply Hbody, Hx.
Qed.

Lemma finish_batch_keeps_stats w status target_format pending :
  keeps stats (finish_batch w status target_format pending).
Proof.
  unfold finish_batch, deliver, summarize, clear_session, write_file, log.
  keeps_auto.
Qed.

Lemma button_callback_books w data s r s' :
  button_callback w data s = (r, s') ->
  loc s = fresh_locals ->
  Callback.ledger s s'.
Proof.
  intros Hrun Hfresh.
  destruct (button_callback_cases _ _ _ _ _ Hrun Hfresh)
    as [[(_ & Hs & _ & Hl & _) _]
       | (fmt & pending & status & s1 & r2 & s2 & _ & _ & _
          & (_ & Hs1 & _ & Hl1 & _) & _ & Hloop & s3 & _
          & (_ & Hs3 & _ & Hl3 & _) & Hend)].
  - apply ledger_same; assumption.
  - eapply ledger_trans; [apply ledger_same; eassumption |].
    eapply ledger_trans; [| apply ledger_same; eassumption].
    eapply ledger_trans;
      [eapply for_each_books, Hloop; intros; eapply process_item_books;
       eassumption |].
    destruct Hend as [[_ ->] | (_ & r3 & Hfin)]; [apply ledger_refl |].
    apply ledger_same.
    + eapply finish_batch_keeps_stats, Hfin.
    + eapply finish_batch_keeps_loc, Hfin.
Qed.

(** X13: the statistics follow the batch.  Over a run of the handler the
    recorded images grow by the number of successes and the recorded
    converted bytes by the converted total of the summary; the recorded
    original bytes grow by no more than the original total of the summary
    (which also holds the bytes of the items that failed); and every
    success wrote at least one byte. *)
Theorem statistics_follow_the_batch (w : world) (data : string)
    (s : state) :
  loc s = fresh_locals ->
  let s' := snd (button_callback w data s) in
  let l' := loc s' in
  Stats.total_images (stats s')
  = Stats.total_images (stats s) + Z.of_nat (successfully_converted_count l')
  /\ Stats.total_size_converted (stats s')
     = Stats.total_size_converted (stats s) + total_converted_size l'
  /\ Stats.total_size_original (stats s') - Stats.total_size_original (stats s)
     <= total_original_size l'
  /\ Z.of_nat (successfully_converted_count l') <= total_converted_size l'.
Proof.
  intros Hfresh. simpl.
  destruct (button_callback w data s) as [r s'] eqn:Hrun. simpl.
  apply button_callback_books in Hrun; [| exact Hfresh].
  unfold Callback.ledger in Hrun. rewrite Hfresh in Hrun. simpl in Hrun.
  destruct Hrun as (H1 & H2 & H3 & H4 & _). repeat split; lia.
Qed.

Lemma statistics_follow_the_batch_witness :
  let s' := snd (button_callback Scenarios.demo_world "convert_webp"
                   (Scenarios.session Scenarios.broken_first)) in
  Stats.total_images (stats s')
  = Stats.total_images Stats.initial
    + Z.of_nat (successfully_converted_count (loc s')).
Proof.
  apply (statistics_follow_the_batch Scenarios.demo_world "convert_webp"
           (Scenarios.session Scenarios.broken_first)).
  reflexivity.
Defined.

(** X14: a run of the handler keeps the statistics in agreement: if the
    image total was the sum over the formats and over the days before, it
    is after, and so for the byte totals over the days and the months,
    however many items were converted, failed or skipped and wherever the
    run stopped. *)
Theorem batch_keeps_statistics_consistent (w : world) (data : string)
    (s : state) :
  loc s = fresh_locals ->
  let s' := snd (button_callback w data s) in
  (Stats.consistent (stats s) -> Stats.consistent (stats s'))
  /\ (Admin.sizes_consistent (stats s) -> Admin.sizes_consistent (stats s')).
Proof.
  intros Hfresh. simpl.
  destruct (button_callback w data s) as [r s'] eqn:Hrun. simpl.
  apply button_callback_books in Hrun; [| exact Hfresh].
  destruct Hrun as (_ & _ & _ & _ & H5 & H6). auto.
Qed.

Lemma batch_keeps_statistics_consistent_witness :
  Stats.consistent
    (stats (snd (button_callback Scenarios.demo_world "convert_webp"
                   (Scenarios.session Scenarios.broken_first)))).
Proof.
  apply (proj1 (batch_keeps_statistics_consistent Scenarios.demo_world
                  "convert_webp" (Scenarios.session Scenarios.broken_first)
                  eq_refl)).
  split; reflexivity.
Defined.

(** *** The names in the archive *)

Lemma substring_skip a : forall b,
  String.substring (String.length a) (String.length b) (a +:+ b) = b.
Proof.
  induction a as [| c a IH]; intros b.
  - change ("" +:+ b) with b. apply substring_whole.
  - rewrite string_app_cons. simpl. apply IH.
Qed.

Lemma endswith_app a b : endswith (a +:+ b) b = true.
Proof.
  unfold endswith. rewrite string_length_app.
  apply andb_true_iff. split; [apply Nat.leb_le; lia |].
  apply bool_decide_eq_true.
  replace (String.length a + String.length b - String.length b)%nat
    with (String.length a) by lia.
  apply substring_skip.
Qed.

Lemma loop_names w status target_format total items :
  forall s r s',
    for_each items (process_item w status target_format total) s = (r, s') ->
    exists sub,
      sublist sub (map snd items)
      /\ map snd (converted_files_paths (loc s'))
         = map snd (converted_files_paths (loc s))
           ++ map (Callback.archive_name
                     (default "" (dict_get SUPPORTED_FORMATS target_format)))
                  sub
      /\ (sub <> [] -> is_Some (dict_get SUPPORTED_FORMATS target_format)).
Proof.
  induction items as [| item rest IH]; intros s r s' Hrun; simpl in Hrun.
  - injection Hrun as <- <-. exists []. rewrite app_nil_r.
    split; [constructor | split; [reflexivity | congruence]].
  - unfold bind in Hrun.
    destruct (process_item w status target_format total item s)
      as [r1 s1] eqn:Hitem.
    assert (Hrest : exists sub,
               sublist sub (map snd rest)
               /\ map snd (converted_files_paths (loc s'))
                  = map snd (converted_files_paths (loc s1))
                    ++ map (Callback.archive_name
                              (default ""
                                 (dict_get SUPPORTED_FORMATS target_format)))
                           sub
               /\ (sub <> [] ->
                   is_Some (dict_get SUPPORTED_FORMATS target_format))).
    { destruct r1 as [[] | e]; [eapply IH, Hrun |].
      injection Hrun as <- <-. exists []. rewrite app_nil_r.
      split; [apply sublist_nil_l | split; [reflexivity | congruence]]. }
    clear Hrun IH. destruct Hrest as (sub & Hsub & Hnames & Hext).
    apply process_item_ledger in Hitem.
    destruct Hitem as [(_ & Hconv & _)
                      | (o & c & today & month & out & ext & _ & _ & Hget & _
                         & Hconv & _)].
    + exists sub. rewrite Hnames, Hconv. simpl.
      split; [apply sublist_cons; exact Hsub | auto].
    + exists (snd item :: sub). rewrite Hnames, Hconv, Hget. simpl.
      rewrite map_app, <- app_assoc. simpl.
      split; [apply sublist_skip; exact Hsub |].
      split; [reflexivity | eauto].
Qed.

(** X15: the results follow the pending list.  The names collected for the
    archive are those of a selection of the pending images (the ones that
    converted), in arrival order, each with its extension replaced by the
    extension of the target format; so every name in the archive ends with
    that extension. *)
Theorem results_follow_pending (w : world) (data : string) (s : state)
    (pending : list (string * string)) :
  loc s = fresh_locals ->
  pending_images (user s) = Some pending ->
  let l' := loc (snd (button_callback w data s)) in
  exists ext sub,
    sublist sub (map snd pending)
    /\ map snd (converted_files_paths l')
       = map (Callback.archive_name ext) sub
    /\ Forall (fun name => endswith name ext = true)
         (map snd (converted_files_paths l'))
    /\ (sub <> [] ->
        exists target_format,
          Callback.target_of w data = Some target_format
          /\ dict_get SUPPORTED_FORMATS target_format = Some ext).
Proof.
  intros Hfresh Hpending. simpl.
  destruct (button_callback w data s) as [r s'] eqn:Hrun. simpl.
  assert (Hcore : exists ext sub,
             sublist sub (map snd pending)
             /\ map snd (converted_files_paths (loc s'))
                = map (Callback.archive_name ext) sub
             /\ (sub <> [] ->
                 exists target_format,
                   Callback.target_of w data = Some target_format
                   /\ dict_get SUPPORTED_FORMATS target_format = Some ext)).
  { destruct (button_callback_cases _ _ _ _ _ Hrun Hfresh)
      as [[(_ & _ & _ & Hl & _) _]
         | (fmt & pending' & status & s1 & r2 & s2 & Htarget & Hpending' & _
            & (_ & _ & _ & Hl1 & _) & _ & Hloop & s3 & _
            & (_ & _ & _ & Hl3 & _) & Hend)].
    - exists "", []. rewrite Hl, Hfresh.
      split; [apply sublist_nil_l | split; [reflexivity | congruence]].
    - assert (pending' = pending) as -> by congruence.
      apply loop_names in Hloop as (sub & Hsub & Hnames & Hext).
      rewrite Hl1, Hfresh in Hnames.
      change (map snd (converted_files_paths fresh_locals) ++ ?x)
        with x in Hnames.
      assert (Hl2 : loc s3 = loc s2).
      { destruct Hend as [[_ ->] | (_ & r3 & Hfin)]; [reflexivity |].
        eapply finish_batch_keeps_loc, Hfin. }
      exists (default "" (dict_get SUPPORTED_FORMATS fmt)), sub.
      rewrite Hl3, Hl2.
      split; [exact Hsub | split; [exact Hnames |]].
      intros Hne. exists fmt. split; [exact Htarget |].
      destruct (Hext Hne) as [ext ->]. reflexivity. }
  destruct Hcore as (ext & sub & Hsub & Hnames & Hext).
  exists ext, sub. split; [exact Hsub | split; [exact Hnames |]].
  split; [| exact Hext].
  rewrite Hnames. apply Forall_forall. intros name Hin.
  apply list_elem_of_fmap in Hin as (original & -> & _).
  apply endswith_app.
Qed.

Lemma results_follow_pending_witness :
  let l' := loc (snd (button_callback Scenarios.demo_world "convert_webp"
                        (Scenarios.session Scenarios.broken_first))) in
  exists ext sub,
    sublist sub ["c.png"; "a.png"; "b.png"]
    /\ map snd (converted_files_paths l')
       = map (Callback.archive_name ext) sub
    /\ Forall (fun name => endswith name ext = true)
         (map snd (converted_files_paths l'))
    /\ (sub <> [] ->
        exists target_format,
          Callback.target_of Scenarios.demo_world "convert_webp" = Some target_format
          /\ dict_get SUPPORTED_FORMATS target_format = Some ext).
Proof.
  apply (results_follow_pending Scenarios.demo_world "convert_webp"
           (Scenarios.session Scenarios.broken_first)
           Scenarios.broken_first);
    reflexivity.
Defined.

(** *** A target the table does not know *)

Lemma process_item_unsupported w status target_format total item :
  dict_get SUPPORTED_FORMATS target_format = None ->
  keeps (fun s => (stats s, converted_files_paths (loc s),
                   successfully_converted_count (loc s),
                   saved_images (trace s)))
        (process_item w status target_format total item).
Proof.
  intros Hnone s r s' Hrun. unfold_item. rewrite Hnone in Hrun.
  simpl in Hrun.
  repeat (case_match; simplify_eq/=).
  all: trace_simpl; reflexivity.
Qed.

(** X16: a target format that is not in the table converts nothing.  Each
    image is still opened, and reported as failed when it opens; nothing
    goes to the encoder, nothing is recorded in the statistics, no result
    is collected and no archive is built. *)
Theorem unsupported_target_converts_nothing (w : world)
    (data target_format : string) (s : state) :
  loc s = fresh_locals ->
  Callback.target_of w data = Some target_format ->
  dict_get SUPPORTED_FORMATS target_format = None ->
  let s' := snd (button_callback w data s) in
  stats s' = stats s
  /\ converted_files_paths (loc s') = []
  /\ successfully_converted_count (loc s') = 0%nat
  /\ saved_images (trace s') = saved_images (trace s)
  /\ archive_events (trace s') = archive_events (trace s).
Proof.
  intros Hfresh Htarget Hnone. simpl.
  destruct (button_callback w data s) as [r s'] eqn:Hrun. simpl.
  assert (Hobs : stats s' = stats s
                 /\ converted_files_paths (loc s') = []
                 /\ successfully_converted_count (loc s') = 0%nat).
  { destruct (button_callback_cases _ _ _ _ _ Hrun Hfresh)
      as [[(_ & Hs & _ & Hl & _) _]
         | (fmt & pending & status & s1 & r2 & s2 & Htarget' & _ & _
            & (_ & Hs1 & _ & Hl1 & _) & _ & Hloop & s3 & _
            & (_ & Hs3 & _ & Hl3 & _) & Hend)].
    - rewrite Hs, Hl, Hfresh. auto.
    - assert (fmt = target_format) as -> by congruence.
      eapply keeps_for_each in Hloop;
        [| intros; apply process_item_unsupported; exact Hnone].
      injection Hloop as Hs2 Hc2 Hn2 _.
      assert (H23 : stats s3 = stats s2 /\ loc s3 = loc s2).
      { destruct Hend as [[_ ->] | (_ & r3 & Hfin)]; [auto |].
        split; [eapply finish_batch_keeps_stats, Hfin
               | eapply finish_batch_keeps_loc, Hfin]. }
      destruct H23 as [Hs23 Hl23].
      rewrite Hs3, Hl3, Hs23, Hl23, Hs2, Hc2, Hn2, Hs1, Hl1, Hfresh. auto. }
  destruct Hobs as (Hs & Hc & Hn). split; [exact Hs |].
  split; [exact Hc |]. split; [exact Hn |].
  destruct (button_callback_spec _ _ _ _ _ Hrun Hfresh)
    as (fmt & _ & _ & _ & _ & Harchive).
  split; [| apply Harchive; exact Hc].
  destruct (button_callback_cases _ _ _ _ _ Hrun Hfresh)
    as [[_ (new & -> & Hnew)]
       | (fmt' & pending & status & s1 & r2 & s2 & Htarget' & _ & _
          & _ & Htrace1 & Hloop & s3 & Htrace3 & _ & Hend)].
  - rewrite saved_images_app, (proj1 (proj2 (replies_only _ Hnew))).
    apply app_nil_r.
  - assert (fmt' = target_format) as -> by congruence.
    eapply keeps_for_each in Hloop;
      [| intros; apply process_item_unsupported; exact Hnone].
    injection Hloop as _ _ _ Hsaved2.
    assert (Hsaved3 : saved_images (trace s3) = saved_images (trace s2)).
    { destruct Hend as [[_ ->] | (_ & r3 & Hfin)]; [reflexivity |].
      eapply (finish_batch_keeps_saved _ _ _ _ _ _ _ Hfin). }
    assert (Hsaved' : saved_images (trace s') = saved_images (trace s3))
      by (destruct Htrace3 as [-> | ->]; trace_simpl; reflexivity).
    rewrite Hsaved', Hsaved3, Hsaved2, Htrace1. trace_simpl. reflexivity.
Qed.

Lemma unsupported_target_converts_nothing_witness :
  let s' := snd (button_callback Scenarios.demo_world "convert_heic"
                   (Scenarios.session Scenarios.broken_first)) in
  stats s' = Stats.initial
  /\ converted_files_paths (loc s') = []
  /\ successfully_converted_count (loc s') = 0%nat
  /\ saved_images (trace s') = saved_images []
  /\ archive_events (trace s') = archive_events [].
Proof.
  apply (unsupported_target_converts_nothing Scenarios.demo_world
           "convert_heic" "HEIC" (Scenarios.session Scenarios.broken_first));
    reflexivity.
Defined.

(** *** Nothing to convert *)

(** X17: a button press that cannot start a batch changes nothing but the
    conversation.  When the callback data names no format (it holds no
    underscore) the user gets the critical-error text, whatever is
    pending; when it names one but no image is pending, the user is told
    to send images first.  In both cases the disk, the statistics and the
    session are as before. *)
Theorem nothing_to_convert (w : world) (data : string) (s : state) :
  let s' := snd (button_callback w data s) in
  (Callback.target_of w data = None ->
   Callback.same_but_trace s s'
   /\ (trace s' = trace s ++ [EAnswer]
       \/ trace s' = trace s ++ [EAnswer; EReply MsgCritical]))
  /\ (forall target_format,
        Callback.target_of w data = Some target_format ->
        pending_images (user s) = None
        \/ pending_images (user s) = Some [] ->
        Callback.same_but_trace s s'
        /\ (trace s' = trace s ++ [EAnswer]
            \/ trace s' = trace s ++ [EAnswer; EReply MsgNoImagesFound]
            \/ trace s' = trace s ++ [EAnswer; EReply MsgNoImagesFound;
                                      EReply MsgCritical])).
Proof.
  simpl. destruct (button_callback w data s) as [r s'] eqn:Hrun. simpl.
  unfold button_callback, try_except in Hrun.
  unfold bind at 1 in Hrun. unfold tx at 1 in Hrun.
  set (s0 := set_trace _ s) in Hrun.
  assert (H0 : Callback.same_but_trace s s0
               /\ trace s0 = trace s ++ [EAnswer]) by (repeat split).
  clearbody s0. destruct H0 as (Hsame0 & Htrace0).
  destruct (tx_ok w (length (trace s))).
  2:{ injection Hrun as <- <-. split; [auto |]. intros fmt _ _. auto. }
  unfold bind at 1 in Hrun. rewrite parse_target_format_of in Hrun.
  split.
  - intros Hnone. rewrite Hnone in Hrun.
    apply notice_run in Hrun as [Hsame Htr].
    split; [eapply same_but_trace_trans; eassumption |].
    right. rewrite Htr, Htrace0, <- app_assoc. reflexivity.
  - intros fmt Hsome Hpending. rewrite Hsome in Hrun.
    unfold bind at 1, get at 1 in Hrun.
    assert (Hp0 : pending_images (user s0) = pending_images (user s))
      by (destruct Hsame0 as (_ & _ & -> & _); reflexivity).
    assert (Hsend : match (tx w (EReply MsgNoImagesFound) ;; ret tt) s0 with
                    | (Ok a, s1) => (Ok a, s1)
                    | (Raise _, s1) =>
                        (tx w (EReply MsgCritical) ;; ret tt) s1
                    end = (r, s')).
    { rewrite <- Hrun. rewrite Hp0.
      destruct Hpending as [-> | ->]; reflexivity. }
    clear Hrun.
    destruct ((tx w (EReply MsgNoImagesFound) ;; ret tt) s0)
      as [[[] | e] s1] eqn:Hfirst;
      apply notice_run in Hfirst as [Hsame1 Htr1].
    + injection Hsend as <- <-.
      split; [eapply same_but_trace_trans; eassumption |].
      right. left. rewrite Htr1, Htrace0, <- app_assoc. reflexivity.
    + apply notice_run in Hsend as [Hsame2 Htr2].
      split; [eapply same_but_trace_trans;
              [eapply same_but_trace_trans |]; eassumption |].
      right. right. rewrite Htr2, Htr1, Htrace0, <- !app_assoc. reflexivity.
Qed.

Lemma nothing_to_convert_witness :
  let s := Scenarios.session Scenarios.broken_first in
  let s' := snd (button_callback Scenarios.demo_world "convert" s) in
  Callback.same_but_trace s s'
  /\ (trace s' = trace s ++ [EAnswer]
      \/ trace s' = trace s ++ [EAnswer; EReply MsgCritical]).
Proof.
  apply (proj1 (nothing_to_convert Scenarios.demo_world "convert"
                  (Scenarios.session Scenarios.broken_first))).
  reflexivity.
Defined.

(** *** The disk after a batch *)

Lemma removal_loop {A} (path : A -> string) (body : A -> M unit)
    (l : list A) :
  Callback.removes path body ->
  forall s, exists s',
    for_each l body s = (Ok tt, s')
    /\ (forall x, x ∈ l -> fs s' !! path x = None)
    /\ (forall p, fs s !! p = None -> fs s' !! p = None).
Proof.
  intros Hbody. induction l as [| x l IH]; intros s; simpl.
  - exists s. split; [reflexivity |]. split; [| auto].
    intros x Hx. inversion Hx.
  - destruct (Hbody x s) as (s1 & Hx & Hfs1).
    destruct (IH s1) as (s' & Hrest & Hgone & Hkeep).
    exists s'. unfold bind. rewrite Hx. split; [exact Hrest |].
    split.
    + intros y Hy. apply elem_of_cons in Hy as [-> | Hy]; [| auto].
      apply Hkeep. rewrite Hfs1. apply lookup_delete_eq.
    + intros p Hp. apply Hkeep. rewrite Hfs1.
      destruct (decide (path x = p)) as [<- | Hne];
        [apply lookup_delete_eq | rewrite lookup_delete_ne; assumption].
Qed.

Lemma removes_converted :
  Callback.removes (fun entry : string * string => fst entry)
    (fun entry =>
       found <- path_exists (fst entry) ;;
       if found then unlink (fst entry) else ret tt).
Proof.
  intros entry s. unfold bind, path_exists, unlink, ret.
  destruct (fs s !! entry.1) as [f |] eqn:Hlook; simpl.
  - rewrite Hlook. eexists. split; reflexivity.
  - exists s. split; [reflexivity |]. symmetry. apply delete_id. exact Hlook.
Qed.

Lemma removes_pending :
  Callback.removes (fun item : string * string => fst item)
    (fun item =>
       found <- path_exists (fst item) ;;
       if found then try_except (unlink (fst item)) (fun _ => ret tt)
       else ret tt).
Proof.
  intros item s. unfold bind, path_exists, try_except, unlink, ret.
  destruct (fs s !! item.1) as [f |] eqn:Hlook; simpl.
  - rewrite Hlook. eexists. split; reflexivity.
  - exists s. split; [reflexivity |]. symmetry. apply delete_id. exact Hlook.
Qed.

Lemma deliver_ok_removes w target_format s s' :
  deliver w target_format s = (Ok tt, s') ->
  forall entry, entry ∈ converted_files_paths (loc s) ->
                fs s' !! fst entry = None.
Proof.
  unfold deliver. intros Hrun.
  apply bind_ok in Hrun as (s0 & s1 & Hget & Hrun).
  injection Hget as <- <-.
  destruct (converted_files_paths (loc s)) as [| first others] eqn:Hconv.
  { intros entry Hin. inversion Hin. }
  apply bind_ok in Hrun as (stamp & s2 & _ & Hrun).
  apply bind_ok in Hrun as (_ & s3 & _ & Hrun).
  apply bind_ok in Hrun as (_ & s4 & _ & Hrun).
  apply bind_ok in Hrun as (members & s5 & _ & Hrun).
  apply bind_ok in Hrun as (_ & s6 & _ & Hrun).
  apply bind_ok in Hrun as (_ & s7 & _ & Hrun).
  destruct (removal_loop _ _ (first :: others) removes_converted s7)
    as (s8 & Hloop & Hgone & _).
  rewrite Hloop in Hrun. injection Hrun as <-. exact Hgone.
Qed.

(** X18: a batch that runs to its end cleans up after itself: none of the
    files that were pending and none of the converted files that went
    into the archive is left on disk. *)
Theorem completed_batch_cleans_up (w : world) (target_format : string)
    (pending : list (string * string)) (s s' : state) :
  run_batch w target_format pending s = (Ok tt, s') ->
  (forall item, item ∈ pending -> fs s' !! fst item = None)
  /\ (forall entry, entry ∈ converted_files_paths (loc s') ->
                    fs s' !! fst entry = None).
Proof.
  intros Hrun. unfold run_batch in Hrun.
  apply bind_ok in Hrun as (status & s1 & _ & Hrun).
  apply bind_ok in Hrun as (_ & s2 & _ & Hrun).
  apply bind_ok in Hrun as (_ & s3 & _ & Hrun).
  pose proof (finish_batch_keeps_loc _ _ _ _ _ _ _ Hrun) as Hloc.
  unfold finish_batch in Hrun.
  apply bind_ok in Hrun as (u4 & s4 & Hdeliver & Hrun).
  apply bind_ok in Hrun as (u5 & s5 & Hsum & Hrun).
  destruct u4, u5.
  assert (Hfs5 : fs s5 = fs s4).
  { assert (Hk : keeps fs (summarize w status (length pending)))
      by (unfold summarize; keeps_auto).
    eapply Hk, Hsum. }
  unfold clear_session in Hrun.
  apply bind_ok in Hrun as (u6 & s6 & Hloop & Hrun).
  unfold modify in Hrun. injection Hrun as Hs'. subst s'. simpl.
  destruct (removal_loop _ _ pending removes_pending s5)
    as (s6' & Hloop' & Hgone & Hkeep).
  rewrite Hloop' in Hloop. injection Hloop as Hu6 Hs6. subst s6'.
  split; [exact Hgone |].
  intros entry Hin. apply Hkeep. rewrite Hfs5.
  eapply deliver_ok_removes; [exact Hdeliver |].
  simpl in Hloc. rewrite <- Hloc. exact Hin.
Qed.

Lemma completed_batch_cleans_up_witness :
  let s' := snd (run_batch Scenarios.demo_world "WEBP" Scenarios.broken_first
                   (Scenarios.session Scenarios.broken_first)) in
  (forall item, item ∈ Scenarios.broken_first -> fs s' !! fst item = None)
  /\ (forall entry, entry ∈ converted_files_paths (loc s') ->
                    fs s' !! fst entry = None).
Proof.
  apply (completed_batch_cleans_up Scenarios.demo_world "WEBP"
           Scenarios.broken_first
           (Scenarios.session Scenarios.broken_first)).
  vm_compute. reflexivity.
Defined.

(** *** What is sent *)

Lemma sent_archives_app t1 t2 :
  sent_archives (t1 ++ t2) = sent_archives t1 ++ sent_archives t2.
Proof. apply omap_app. Qed.

Lemma sent_archives_of_archive_events t :
  sent_archives (archive_events t) = sent_archives t.
Proof.
  induction t as [| e t IH]; [reflexivity |].
  unfold archive_events in *.
  destruct (is_archive_event e) eqn:He.
  - rewrite filter_cons_True by exact He.
    destruct e; try discriminate He; simpl; rewrite ?IH;
      unfold sent_archives in *; simpl; rewrite ?IH; reflexivity.
  - rewrite filter_cons_False by (rewrite He; discriminate).
    destruct e; try discriminate He; simpl; exact IH.
Qed.

Lemma zip_write_all_run files : forall s r s',
  zip_write_all files s = (r, s') ->
  sent_archives (trace s') = sent_archives (trace s)
  /\ loc s' = loc s
  /\ forall members, r = Ok members -> members = map snd files.
Proof.
  induction files as [| [file_path arcname] rest IH]; intros s r s' Hrun;
    simpl in Hrun.
  - injection Hrun as <- <-. repeat split. intros members [= <-]. reflexivity.
  - unfold bind at 1, path_exists at 1 in Hrun.
    destruct (bool_decide (is_Some (fs s !! file_path)));
      cbv beta iota in Hrun.
    2:{ injection Hrun as <- <-. repeat split. intros members [=]. }
    unfold bind at 1, log at 1, modify at 1 in Hrun. cbv beta iota in Hrun.
    unfold bind at 1 in Hrun.
    destruct (zip_write_all rest _) as [[members' | e] s1] eqn:Hrest;
      apply IH in Hrest as (Hsent & Hloc & Hmembers);
      injection Hrun as <- <-; rewrite Hsent, Hloc; simpl;
      rewrite sent_archives_app, app_nil_r;
      (split; [reflexivity | split; [reflexivity |]]).
    + intros members [= <-]. simpl. f_equal. apply Hmembers. reflexivity.
    + intros members [=].
Qed.

Lemma deliver_sent w target_format s r s' :
  deliver w target_format s = (r, s') ->
  sent_archives (trace s') = sent_archives (trace s)
  \/ sent_archives (trace s')
     = sent_archives (trace s) ++ [map snd (converted_files_paths (loc s))].
Proof.
  unfold deliver. intros Hrun.
  unfold bind at 1, get at 1 in Hrun.
  destruct (converted_files_paths (loc s)) as [| first others] eqn:Hconv.
  { left. apply notice_run in Hrun as [_ ->].
    rewrite sent_archives_app. apply app_nil_r. }
  unfold bind at 1, now at 1 in Hrun.
  unfold bind at 1, get at 1 in Hrun. cbv beta iota in Hrun.
  unfold bind at 1, modify at 1 in Hrun. cbv beta iota in Hrun.
  unfold ret at 1 in Hrun. cbv beta iota in Hrun.
  unfold bind at 1, log at 1, modify at 1 in Hrun. cbv beta iota in Hrun.
  unfold bind at 1, write_file at 1, modify at 1 in Hrun.
  cbv beta iota in Hrun.
  unfold bind at 1 in Hrun.
  match type of Hrun with
  | context [zip_write_all (first :: others) ?sz] =>
      destruct (zip_write_all (first :: others) sz)
        as [[members | e] s1] eqn:Hzip;
      apply zip_write_all_run in Hzip as (Hsent1 & _ & Hmembers);
      simpl trace in Hsent1; rewrite sent_archives_app in Hsent1;
      simpl in Hsent1; rewrite app_nil_r in Hsent1
  end.
  2:{ injection Hrun as <- <-. left. exact Hsent1. }
  rewrite (Hmembers _ eq_refl) in Hrun. clear Hmembers.
  unfold bind at 1, tx at 1 in Hrun.
  set (s2 := set_trace _ s1) in Hrun.
  assert (Hsent2 : sent_archives (trace s2)
                   = sent_archives (trace s) ++ [map snd (first :: others)]).
  { subst s2. simpl trace. rewrite sent_archives_app, Hsent1. reflexivity. }
  clearbody s2. right. rewrite <- Hsent2.
  destruct (tx_ok w (length (trace s1))); cbv beta iota in Hrun.
  2:{ injection Hrun as <- <-. reflexivity. }
  match type of Hrun with
  | ?tail s2 = _ =>
      assert (Hk : keeps (fun s => sent_archives (trace s)) tail)
        by keeps_auto;
      apply (Hk _ _ _ Hrun)
  end.
Qed.

Lemma finish_batch_sent w status target_format pending s r s' :
  finish_batch w status target_format pending s = (r, s') ->
  sent_archives (trace s') = sent_archives (trace s)
  \/ sent_archives (trace s')
     = sent_archives (trace s) ++ [map snd (converted_files_paths (loc s))].
Proof.
  unfold finish_batch. intros Hrun. unfold bind at 1 in Hrun.
  destruct (deliver w target_format s) as [[[] | e] s1] eqn:Hdeliver;
    apply deliver_sent in Hdeliver.
  2:{ injection Hrun as <- <-. exact Hdeliver. }
  assert (Hk : keeps (fun s => sent_archives (trace s))
                 (summarize w status (length pending) ;;
                  clear_session pending)).
  { unfold summarize, clear_session. keeps_auto; simpl;
      rewrite sent_archives_app; simpl; rewrite ?app_nil_r; reflexivity. }
  rewrite (Hk _ _ _ Hrun). exact Hdeliver.
Qed.

(** X19: what goes out is what was collected.  A run of the handler sends
    at most one archive, and the members of the archive it sends are the
    names of the results, in their order. *)
Theorem archive_holds_the_results (w : world) (data : string) (s : state) :
  loc s = fresh_locals ->
  let s' := snd (button_callback w data s) in
  sent_archives (trace s') = sent_archives (trace s)
  \/ sent_archives (trace s')
     = sent_archives (trace s)
       ++ [map snd (converted_files_paths (loc s'))].
Proof.
  intros Hfresh. simpl.
  destruct (button_callback w data s) as [r s'] eqn:Hrun. simpl.
  destruct (button_callback_cases _ _ _ _ _ Hrun Hfresh)
    as [[_ (new & -> & Hnew)]
       | (fmt & pending & status & s1 & r2 & s2 & _ & _ & _ & _ & Htrace1
          & Hloop & s3 & Htrace3 & (_ & _ & _ & Hl3 & _) & Hend)].
  - left. rewrite sent_archives_app, (proj1 (proj2 (proj2 (replies_only _ Hnew)))).
    apply app_nil_r.
  - assert (Hsent1 : sent_archives (trace s1) = sent_archives (trace s))
      by (rewrite Htrace1, sent_archives_app; apply app_nil_r).
    assert (Hsent2 : sent_archives (trace s2) = sent_archives (trace s1)).
    { apply loop_spec in Hloop as (_ & Harchive & _).
      rewrite <- sent_archives_of_archive_events, Harchive.
      apply sent_archives_of_archive_events. }
    assert (Hsent' : sent_archives (trace s') = sent_archives (trace s3))
      by (destruct Htrace3 as [-> | ->];
          [reflexivity | rewrite sent_archives_app; apply app_nil_r]).
    rewrite Hsent', Hl3, <- Hsent1, <- Hsent2.
    destruct Hend as [[_ ->] | (_ & r3 & Hfin)]; [left; reflexivity |].
    rewrite (finish_batch_keeps_loc _ _ _ _ _ _ _ Hfin).
    eapply finish_batch_sent, Hfin.
Qed.

Lemma archive_holds_the_results_witness :
  let s' := snd (button_callback Scenarios.demo_world "convert_webp"
                   (Scenarios.session Scenarios.broken_first)) in
  sent_archives (trace s') = sent_archives []
  \/ sent_archives (trace s')
     = sent_archives [] ++ [map snd (converted_files_paths (loc s'))].
Proof.
  apply (archive_holds_the_results Scenarios.demo_world "convert_webp"
           (Scenarios.session Scenarios.broken_first)).
  reflexivity.
Defined.
